(** * Nexios Mailer: a shallow embedding of [mailer/utils.py],
    [mailer/base.py] and [mailer/templates.py], and the properties of the
    send pipeline.

    Python [str] values are [string]; the character-level routines
    (regular expressions, slicing, [os.path.splitext]) work on the list of
    characters of the string.  Exceptions are values of [exn]; code that
    may raise lives in the monad [M] (state of the mailer object plus the
    calls made on the SMTP collaborator).  The libraries the code calls
    ([smtplib], [email], [pathlib], [mimetypes], [base64], Jinja2) are
    collaborators: records of functions that answer or raise. *)

From Stdlib Require Import ZArith Lia Ascii String List Bool.
From stdpp Require Import base option list strings gmap.

Local Open Scope Z_scope.
Local Open Scope list_scope.

(* ===================================================================== *)
(** ** Characters and Python string primitives *)
(* ===================================================================== *)

Module Py.

Definition chars (s : string) : list ascii := list_ascii_of_string s.
Definition str (l : list ascii) : string := string_of_list_ascii l.

Definition code (c : ascii) : Z := Z.of_N (N_of_ascii c).

Definition in_range (lo hi : ascii) (c : ascii) : bool :=
  (code lo <=? code c) && (code c <=? code hi).

Definition is_char (a c : ascii) : bool := Ascii.eqb a c.

(** [len(s)] *)
Definition len (l : list ascii) : Z := Z.of_nat (length l).

(** [s[:k]] for an arbitrary integer [k]: a negative bound counts from
    the end of the string, and bounds are clamped to the string. *)
Definition slice_to (l : list ascii) (k : Z) : list ascii :=
  if 0 <=? k then take (Z.to_nat k) l
  else take (Z.to_nat (len l + k)) l.

(** [s[k:]] for [0 <= k]. *)
Definition slice_from (l : list ascii) (k : Z) : list ascii :=
  drop (Z.to_nat k) l.

(** [s.rfind(c)]: index of the last occurrence of [c], or [-1]. *)
Fixpoint rfind_from (c : ascii) (l : list ascii) (i : Z) (found : Z) : Z :=
  match l with
  | [] => found
  | x :: l' => rfind_from c l' (i + 1) (if is_char c x then i else found)
  end.

Definition rfind (c : ascii) (l : list ascii) : Z := rfind_from c l 0 (-1).

(** [sep.join(items)] *)
Fixpoint join (sep : string) (items : list string) : string :=
  match items with
  | [] => EmptyString
  | [x] => x
  | x :: rest => String.append x (String.append sep (join sep rest))
  end.

(** [needle in hay] on character lists: [needle] is a contiguous part of
    [hay]. *)
Definition occurs (needle hay : list ascii) : Prop :=
  exists pre post, hay = pre ++ needle ++ post.

(** The same on strings. *)
Definition occurs_in (needle hay : string) : Prop :=
  occurs (chars needle) (chars hay).

End Py.

Arguments Py.is_char : simpl never.
Arguments Py.in_range : simpl never.

(* ===================================================================== *)
(** ** The fragment of [re] used by [utils.py] *)
(* ===================================================================== *)

Module Re.

(** A pattern is a sequence of items.  The two patterns of the module
    use anchors, literal characters, character classes and the greedy
    repetitions [+] and [{2,}] of a class. *)
Inductive item : Type :=
| Bol                                   (* ^ *)
| Eol                                   (* $ *)
| Lit (c : ascii)                       (* a literal character *)
| Rep (cls : ascii -> bool) (lo : nat). (* [cls]{lo,} *)

Definition pattern := list item.

(** [$] without [re.MULTILINE]: the end of the string, or the position
    just before a newline that ends the string. *)
Definition newline : ascii := "010"%char.

Definition at_eol (rest : list ascii) : bool :=
  match rest with
  | [] => true
  | [c] => Py.is_char newline c
  | _ => false
  end.

(** Greedy repetition with backtracking: take one more character of the
    class when possible, otherwise (or when the rest fails) stop here
    provided [lo] characters were taken. *)
Fixpoint rep (cls : ascii -> bool) (lo : nat)
         (k : nat -> list ascii -> bool) (pos : nat) (s : list ascii)
  : bool :=
  match s with
  | c :: s' =>
      (cls c && rep cls (Nat.pred lo) k (S pos) s')
      || (Nat.eqb lo 0 && k pos s)
  | [] => Nat.eqb lo 0 && k pos []
  end.

(** [run p pos s]: pattern [p] matches some prefix of [s], where [s] is
    what remains of the subject at offset [pos]. *)
Fixpoint run (p : pattern) : nat -> list ascii -> bool :=
  match p with
  | [] => fun _ _ => true
  | Bol :: p' => fun pos s => Nat.eqb pos 0 && run p' pos s
  | Eol :: p' => fun pos s => at_eol s && run p' pos s
  | Lit c :: p' => fun pos s =>
      match s with
      | c' :: s' => Py.is_char c c' && run p' (S pos) s'
      | [] => false
      end
  | Rep cls lo :: p' => fun pos s => rep cls lo (run p') pos s
  end.

(** [bool(re.match(p, s))]: a match object is always truthy. *)
Definition match_ (p : pattern) (s : string) : bool :=
  run p 0 (Py.chars s).

(** [re.sub(cls, repl, s)] for a pattern that is one character class:
    every character of the class is replaced. *)
Definition sub_class (cls : ascii -> bool) (repl : ascii)
           (s : list ascii) : list ascii :=
  map (fun c => if cls c then repl else c) s.

End Re.

(* ===================================================================== *)
(** ** [mailer/utils.py]: the validator *)
(* ===================================================================== *)

Definition is_letter (c : ascii) : bool :=
  Py.in_range "a" "z" c || Py.in_range "A" "Z" c.

Definition is_digit (c : ascii) : bool := Py.in_range "0" "9" c.

(** [[a-zA-Z0-9._%+-]] *)
Definition local_char (c : ascii) : bool :=
  is_letter c || is_digit c
  || Py.is_char "." c || Py.is_char "_" c || Py.is_char "%" c
  || Py.is_char "+" c || Py.is_char "-" c.

(** [[a-zA-Z0-9.-]] *)
Definition domain_char (c : ascii) : bool :=
  is_letter c || is_digit c || Py.is_char "." c || Py.is_char "-" c.

(** [r'^[a-zA-Z0-9._%+-]+@[a-zA-Z0-9.-]+\.[a-zA-Z]{2,}$'] *)
Definition email_pattern : Re.pattern :=
  [ Re.Bol; Re.Rep local_char 1; Re.Lit "@"; Re.Rep domain_char 1;
    Re.Lit "."; Re.Rep is_letter 2; Re.Eol ].

Definition validate_email (email : string) : bool :=
  Re.match_ email_pattern email.

(** The class of [unsafe_chars]: the characters < > : / | ? * together
    with the double quote (code 34) and the backslash. *)
Definition dquote : ascii := "034"%char.

Definition unsafe_char (c : ascii) : bool :=
  Py.is_char "<" c || Py.is_char ">" c || Py.is_char ":" c
  || Py.is_char dquote c || Py.is_char "/" c || Py.is_char "\" c
  || Py.is_char "|" c || Py.is_char "?" c || Py.is_char "*" c.

(** [os.path.splitext] ([genericpath._splitext] with [sep = '/'],
    no [altsep], [extsep = '.']): the extension starts at the last dot of
    the last path component, unless that component has only dots before
    it. *)
Fixpoint skip_leading_dots (p : list ascii) (filenameIndex : Z)
         (n : nat) (dotIndex : Z) : list ascii * list ascii :=
  match n with
  | O => (p, [])
  | S n' =>
      match p !! Z.to_nat filenameIndex with
      | Some c =>
          if negb (Py.is_char "." c)
          then (Py.slice_to p dotIndex, Py.slice_from p dotIndex)
          else skip_leading_dots p (filenameIndex + 1) n' dotIndex
      | None => (Py.slice_to p dotIndex, Py.slice_from p dotIndex)
      end
  end.

Definition splitext (p : list ascii) : list ascii * list ascii :=
  let sepIndex := Py.rfind "/" p in
  let dotIndex := Py.rfind "." p in
  if sepIndex <? dotIndex
  then skip_leading_dots p (sepIndex + 1)
         (Z.to_nat (dotIndex - (sepIndex + 1))) dotIndex
  else (p, []).

Definition sanitize_filename (filename : string) : string :=
  let sanitized := Re.sub_class unsafe_char "_" (Py.chars filename) in
  if 255 <? Py.len sanitized
  then
    let '(name, ext) := splitext sanitized in
    Py.str (Py.slice_to name (255 - Py.len ext) ++ ext)
  else Py.str sanitized.


(* ===================================================================== *)
(** ** Exceptions and results *)
(* ===================================================================== *)

(** The exception classes that occur in the send path; all derive from
    [Exception].  The argument is the message, which is what [str(e)]
    returns. *)
Inductive exn : Type :=
| ValueError (msg : string)
| FileNotFoundError (msg : string)
| TypeError (msg : string)
| AttributeError (msg : string)
| RuntimeError (msg : string)
| OSError (msg : string)
| SMTPException (msg : string)
| TemplateError (msg : string)
| UnicodeEncodeError (msg : string)
| MessageError (msg : string).

Definition str_exn (e : exn) : string :=
  match e with
  | ValueError m | FileNotFoundError m | TypeError m | AttributeError m
  | RuntimeError m | OSError m | SMTPException m | TemplateError m
  | UnicodeEncodeError m | MessageError m => m
  end.

(** The outcome of a computation that may raise. *)
Inductive res (A : Type) : Type :=
| Ok (a : A)
| Raise (e : exn).
Arguments Ok {A} a.
Arguments Raise {A} e.

Definition res_bind {A B} (r : res A) (f : A -> res B) : res B :=
  match r with
  | Ok a => f a
  | Raise e => Raise e
  end.

#[global] Instance res_ret : MRet res := @Ok.
#[global] Instance res_mbind : MBind res := fun A B f r => res_bind r f.

(** Python truthiness of a string and of an optional string. *)
Definition truthy (s : string) : bool := negb (String.eqb s EmptyString).

Definition truthy_opt (o : option string) : bool :=
  match o with
  | Some s => truthy s
  | None => false
  end.

(** [a or b] for an optional string [a]. *)
Definition or_else (a : option string) (b : string) : string :=
  match a with
  | Some s => if truthy s then s else b
  | None => b
  end.

(* ===================================================================== *)
(** ** [mailer/types.py] *)
(* ===================================================================== *)

(** Values a template context can hold ([Dict[str, Any]]). *)
Inductive pyval : Type :=
| PStr (s : string)
| PInt (z : Z)
| PBool (b : bool)
| PNone.

(** [EmailAddress = Union[str, List[str]]] *)
Inductive EmailAddress : Type :=
| Single (address : string)
| Several (addresses : list string).

Record EmailConfig : Type := {
  smtp_server : string;
  smtp_port : Z;
  smtp_user : string;
  smtp_pass : string;
  use_tls : bool;
  use_ssl : bool;
  timeout : Z;
  max_retries : Z
}.

(** A path argument ([Union[str, Path]]): a string, or a [Path] object,
    which is given by its text ([str(path)]). *)
Inductive PathLike : Type :=
| AsStr (s : string)
| AsPath (text : string).

Record EmailAttachment : Type := {
  file_path : PathLike;
  filename : option string;
  content_type : option string;
  content_id : option string;
  is_inline : bool
}.

Record EmailMessage : Type := {
  to_emails : EmailAddress;
  subject : string;
  body : string;
  is_html : bool;
  from_email : option string;
  cc_emails : option EmailAddress;
  bcc_emails : option EmailAddress;
  reply_to : option string;
  headers : option (list (string * string));
  attachments : option (list EmailAttachment);
  template_data : option (gmap string pyval)
}.

Record EmailResult : Type := {
  success : bool;
  message_id : option string;
  error_message : option string;
  recipients : option (list string)
}.

(** Truthiness of an address field: the empty string and the empty list
    are falsy. *)
Definition truthy_addr (a : EmailAddress) : bool :=
  match a with
  | Single s => truthy s
  | Several l => match l with [] => false | _ => true end
  end.

(* ===================================================================== *)
(** ** MIME documents ([email.mime]) *)
(* ===================================================================== *)

(** A header line: name, value and the parameters given to [add_header]
    as keyword arguments. *)
Record Header : Type := {
  h_name : string;
  h_value : string;
  h_params : list (string * string)
}.

Definition header (name value : string) : Header :=
  {| h_name := name; h_value := value; h_params := [] |}.

Record MIMEPart : Type := {
  part_headers : list Header;
  part_payload : string
}.

Record MIMEMultipart : Type := {
  msg_headers : list Header;
  msg_parts : list MIMEPart
}.

(** [MIMEMultipart()] *)
Definition new_multipart : MIMEMultipart :=
  {| msg_headers := [ header "Content-Type" "multipart/mixed";
                      header "MIME-Version" "1.0" ];
     msg_parts := [] |}.

(** [msg[name] = value]: a header is appended, never replaced. *)
Definition set_header (msg : MIMEMultipart) (name value : string)
  : MIMEMultipart :=
  {| msg_headers := msg_headers msg ++ [header name value];
     msg_parts := msg_parts msg |}.

(** [msg.attach(part)] *)
Definition attach (msg : MIMEMultipart) (part : MIMEPart) : MIMEMultipart :=
  {| msg_headers := msg_headers msg;
     msg_parts := msg_parts msg ++ [part] |}.

(** [part.add_header(name, value, **params)] *)
Definition add_header (part : MIMEPart) (name value : string)
           (params : list (string * string)) : MIMEPart :=
  {| part_headers := part_headers part
                     ++ [{| h_name := name; h_value := value;
                            h_params := params |}];
     part_payload := part_payload part |}.

(** The two encodings [MIMEText] chooses between, with the charset
    parameter and the transfer encoding each one gives. *)
Inductive text_encoding : Type :=
| UsAscii
| Utf8.

Definition charset_name (enc : text_encoding) : string :=
  match enc with UsAscii => "us-ascii" | Utf8 => "utf-8" end.

Definition transfer_encoding (enc : text_encoding) : string :=
  match enc with UsAscii => "7bit" | Utf8 => "base64" end.

(** [MIMEBase(maintype, subtype)] *)
Definition MIMEBase (maintype subtype : string) : MIMEPart :=
  {| part_headers :=
       [ header "Content-Type"
           (String.append maintype (String.append "/" subtype));
         header "MIME-Version" "1.0" ];
     part_payload := EmptyString |}.

(* ===================================================================== *)
(** ** The collaborators: file system, [pathlib], [mimetypes], [base64],
    [email], [smtplib] *)
(* ===================================================================== *)

(** What a path of the file system holds: a file that can be read, or
    something that exists and cannot be opened for reading (a directory,
    a file without permission). *)
Inductive file : Type :=
| Readable (data : string)
| Unreadable (why : string).

Record Env : Type := {
  (** the file system, by the text of a path *)
  fs : gmap string file;
  (** [str(Path(s))] for a string [s] *)
  path_text : string -> string;
  (** [path.name] for the [Path] object of the given text *)
  path_name : string -> string;
  (** [mimetypes.guess_type(path)[0]] *)
  guess_type : string -> option string;
  (** the base64 text of a payload *)
  b64encode : string -> string;
  (** what [MIMEText] does with a text: the encoding it chooses and the
      payload it stores, or the [UnicodeEncodeError] of a text that
      cannot be encoded *)
  encode_text : string -> res (text_encoding * string);
  (** [msg.as_string()]: the serialised document, or the error of a
      header that cannot be written *)
  as_string : MIMEMultipart -> res string
}.

(** [Path(p)], as the text of the resulting object. *)
Definition Path (env : Env) (p : PathLike) : string :=
  match p with
  | AsStr s => path_text env s
  | AsPath text => text
  end.

(** [MIMEText(text, subtype)]: Content-Type with the charset, MIME-Version
    and the transfer encoding, in this order. *)
Definition MIMEText (env : Env) (text subtype : string) : res MIMEPart :=
  encoded ← encode_text env text;
  Ok {| part_headers :=
          [ {| h_name := "Content-Type";
               h_value := String.append "text/" subtype;
               h_params := [("charset"%string, charset_name encoded.1)] |};
            header "MIME-Version" "1.0";
            header "Content-Transfer-Encoding"
              (transfer_encoding encoded.1) ];
        part_payload := encoded.2 |}.

(** The connection object held by the mailer. *)
Inductive Server : Type :=
| SMTP
| SMTP_SSL.

(** The calls made on [smtplib].  [Sendmail] carries the serialised
    document, the third argument of [sendmail]. *)
Inductive Call : Type :=
| OpenPlain (host : string) (port tmo : Z)      (* smtplib.SMTP(...) *)
| OpenSSL (host : string) (port tmo : Z)        (* smtplib.SMTP_SSL(...) *)
| StartTLS
| Login (user pass : string)
| Sendmail (from_addr : string) (to_addrs : list string) (msg : string)
| Quit.

(** A transport answers each call, knowing the calls made before it:
    [None] when the call returns, [Some e] when it raises [e]. *)
Definition Transport : Type := list Call -> Call -> option exn.

(** The state a mailer method runs in: the [_server] attribute and the
    calls made on the transport so far. *)
Record State : Type := {
  _server : option Server;
  calls : list Call
}.

(* ===================================================================== *)
(** ** The monad of methods: state and exceptions *)
(* ===================================================================== *)

Definition M (A : Type) : Type := State -> res A * State.

Definition ret {A} (a : A) : M A := fun st => (Ok a, st).

Definition raise {A} (e : exn) : M A := fun st => (Raise e, st).

Definition bind {A B} (m : M A) (f : A -> M B) : M B :=
  fun st =>
    match m st with
    | (Ok a, st') => f a st'
    | (Raise e, st') => (Raise e, st')
    end.

(** The notations [x ← m; k] and [m ;; k] are those of [mbind]. *)
#[global] Instance M_ret : MRet M := @ret.
#[global] Instance M_bind : MBind M := fun A B f m => bind m f.

(** [try: m  except Exception as e: h e] *)
Definition try_except {A} (m : M A) (h : exn -> M A) : M A :=
  fun st =>
    match m st with
    | (Ok a, st') => (Ok a, st')
    | (Raise e, st') => h e st'
    end.

(** [try: m  finally: f]: [f] runs on every exit of [m]; the outcome is
    that of [m] unless [f] itself raises. *)
Definition try_finally {A} (m : M A) (f : M unit) : M A :=
  fun st =>
    let '(r, st') := m st in
    match f st' with
    | (Ok _, st'') => (r, st'')
    | (Raise e, st'') => (Raise e, st'')
    end.

Definition lift {A} (r : res A) : M A := fun st => (r, st).

Definition get_server : M (option Server) := fun st => (Ok (_server st), st).

Definition set_server (s : option Server) : M unit :=
  fun st => (Ok tt, {| _server := s; calls := calls st |}).

(** A call on the transport is recorded, then returns or raises as the
    transport decides. *)
Definition call (smtp : Transport) (c : Call) : M unit :=
  fun st =>
    let st' := {| _server := _server st; calls := calls st ++ [c] |} in
    match smtp (calls st) c with
    | None => (Ok tt, st')
    | Some e => (Raise e, st')
    end.

(** A method call on [self._server]: on [None] the attribute lookup
    raises before anything reaches the transport. *)
Definition server_call (smtp : Transport) (c : Call) : M unit :=
  s ← get_server;
  match s with
  | Some _ => call smtp c
  | None => raise (AttributeError "'NoneType' object has no attribute")
  end.

(* ===================================================================== *)
(** ** [mailer/utils.py]: address lists and attachments *)
(* ===================================================================== *)

(** The loop of [validate_emails]: the first invalid address raises. *)
Fixpoint validate_each (emails : list string) : res (list string) :=
  match emails with
  | [] => Ok []
  | email :: rest =>
      if negb (validate_email email)
      then Raise (ValueError
                    (String.append "Invalid email address: " email))
      else valid_emails ← validate_each rest; Ok (email :: valid_emails)
  end.

Definition validate_emails (emails : EmailAddress) : res (list string) :=
  match emails with
  | Single email => validate_each [email]
  | Several l => validate_each l
  end.

Definition format_email_list (emails : EmailAddress) : string :=
  match emails with
  | Single s => s
  | Several l => Py.join ", " l
  end.

Definition get_content_type (env : Env) (file_path : PathLike) : string :=
  let file_path := Path env file_path in
  or_else (guess_type env file_path) "application/octet-stream".

(** [s.split('/', 1)] *)
Fixpoint split_once (sep : ascii) (l : list ascii) : list (list ascii) :=
  match l with
  | [] => [[]]
  | c :: l' =>
      if Py.is_char sep c then [[]; l']
      else match split_once sep l' with
           | x :: rest => (c :: x) :: rest
           | [] => [[c]]
           end
  end.

(** [MIMEBase( *content_type.split('/', 1))]: the constructor takes
    exactly a main type and a subtype. *)
Definition mime_base_of (content_type : string) : res MIMEPart :=
  match split_once "/" (Py.chars content_type) with
  | [maintype; subtype] => Ok (MIMEBase (Py.str maintype) (Py.str subtype))
  | _ => Raise (TypeError
                  "MIMEBase.__init__() missing 1 required positional argument: '_subtype'")
  end.

(** [open(path, 'rb').read()] on a path that exists. *)
Definition read_file (f : file) : res string :=
  match f with
  | Readable data => Ok data
  | Unreadable why => Raise (OSError why)
  end.

(** [part.set_payload(data); encoders.encode_base64(part)] *)
Definition encode_base64 (env : Env) (part : MIMEPart) (data : string)
  : MIMEPart :=
  add_header
    {| part_headers := part_headers part;
       part_payload := b64encode env data |}
    "Content-Transfer-Encoding" "base64" [].

Definition create_attachment (env : Env) (file_path : PathLike)
           (filename content_type : option string) : res MIMEPart :=
  let file_path := Path env file_path in
  match fs env !! file_path with
  | None =>
      Raise (FileNotFoundError (String.append "File not found: " file_path))
  | Some f =>
      let filename := default (path_name env file_path) filename in
      let content_type :=
        default (get_content_type env (AsPath file_path)) content_type in
      part ← mime_base_of content_type;
      data ← read_file f;
      Ok (add_header (encode_base64 env part data)
            "Content-Disposition" "attachment" [("filename", filename)])
  end.

(* ===================================================================== *)
(** ** [mailer/base.py]: [SMTPMailer] *)
(* ===================================================================== *)

Section SMTPMailer.

Variable env : Env.
Variable smtp : Transport.
(** [self.config] *)
Variable config : EmailConfig.

Definition connect : M bool :=
  try_except
    ((if use_ssl config
      then
        call smtp (OpenSSL (smtp_server config) (smtp_port config)
                           (timeout config));;
        set_server (Some SMTP_SSL)
      else
        call smtp (OpenPlain (smtp_server config) (smtp_port config)
                             (timeout config));;
        set_server (Some SMTP);;
        if use_tls config then server_call smtp StartTLS else ret tt);;
     server_call smtp (Login (smtp_user config) (smtp_pass config));;
     ret true)
    (fun _ => ret false).

Definition close : M unit :=
  s ← get_server;
  match s with
  | Some _ =>
      try_finally
        (try_except (server_call smtp Quit) (fun _ => ret tt))
        (set_server None)
  | None => ret tt
  end.

(** The headers written by [send_email], in the order of the
    assignments. *)
Definition set_optional (cond : bool) (name value : string)
           (msg : MIMEMultipart) : MIMEMultipart :=
  if cond then set_header msg name value else msg.

Definition set_custom_headers (hs : option (list (string * string)))
           (msg : MIMEMultipart) : MIMEMultipart :=
  match hs with
  | Some l => fold_left (fun m kv => set_header m kv.1 kv.2) l msg
  | None => msg
  end.

(** The body of the attachment loop: build the part and mark it inline
    or attached. *)
Definition attachment_part (attachment : EmailAttachment) : res MIMEPart :=
  mime_part ← create_attachment env (file_path attachment)
                (filename attachment) (content_type attachment);
  Ok (if is_inline attachment && truthy_opt (content_id attachment)
      then
        add_header
          (add_header mime_part "Content-ID"
             (String.append "<"
                (String.append (default EmptyString (content_id attachment))
                   ">")) [])
          "Content-Disposition" "inline" []
      else add_header mime_part "Content-Disposition" "attachment" []).

(** [for attachment in message.attachments: try: ... except Exception:
    logger.warning(...)] *)
Definition attach_all (atts : option (list EmailAttachment))
           (msg : MIMEMultipart) : MIMEMultipart :=
  match atts with
  | Some l =>
      fold_left
        (fun m attachment =>
           match attachment_part attachment with
           | Ok mime_part => attach m mime_part
           | Raise _ => m
           end) l msg
  | None => msg
  end.

(** The document assembled from a message and its validated [To] and
    [Cc] lists: the headers, the body part (which [MIMEText] may fail to
    build), the attachments. *)
Definition build_message (message : EmailMessage)
           (to_emails cc_emails : list string) : res MIMEMultipart :=
  let msg := new_multipart in
  let msg := set_header msg "From"
               (or_else (from_email message) (smtp_user config)) in
  let msg := set_header msg "To" (format_email_list (Several to_emails)) in
  let msg := set_header msg "Subject" (subject message) in
  let msg := set_optional (match cc_emails with [] => false | _ => true end)
               "Cc" (format_email_list (Several cc_emails)) msg in
  let msg := set_optional (truthy_opt (reply_to message))
               "Reply-To" (default EmptyString (reply_to message)) msg in
  let msg := set_custom_headers (headers message) msg in
  body_part ← MIMEText env (body message)
                (if is_html message then "html" else "plain");
  let msg := attach msg body_part in
  Ok (attach_all (attachments message) msg).

Definition validate_optional (emails : option EmailAddress)
  : res (list string) :=
  match emails with
  | Some a => if truthy_addr a then validate_emails a else Ok []
  | None => Ok []
  end.

Definition failure (msg : string) : EmailResult :=
  {| success := false; message_id := None;
     error_message := Some msg; recipients := None |}.

Definition send_email (message : EmailMessage) : M EmailResult :=
  try_finally
    (try_except
       ((if negb (truthy_addr (to_emails message))
         then raise (ValueError "No recipient email addresses provided")
         else ret tt);;
        to_emails ← lift (validate_emails (to_emails message));
        cc_emails ← lift (validate_optional (cc_emails message));
        bcc_emails ← lift (validate_optional (bcc_emails message));
        msg ← lift (build_message message to_emails cc_emails);
        connected ← connect;
        if negb connected
        then ret (failure "Failed to connect to SMTP server")
        else
          let all_recipients := to_emails ++ cc_emails ++ bcc_emails in
          server ← get_server;
          match server with
          | None => raise (AttributeError "'NoneType' object has no attribute")
          | Some _ =>
              text ← lift (as_string env msg);
              call smtp (Sendmail (smtp_user config) all_recipients text);;
              ret {| success := true; message_id := None;
                     error_message := None;
                     recipients := Some all_recipients |}
          end)
       (fun e => ret (failure (str_exn e))))
    close.

End SMTPMailer.

(** A mailer as [__init__] leaves it. *)
Definition init_state : State := {| _server := None; calls := [] |}.

(* ===================================================================== *)
(** ** [mailer/templates.py]: [EmailTemplate] *)
(* ===================================================================== *)

(** The templating collaborator (Jinja2). *)
Record Jinja : Type := {
  (** [Path(dir).exists()] *)
  dir_exists : string -> bool;
  (** [Environment(loader=FileSystemLoader(dir), ...).get_template(name)
      .render( **context)] *)
  render_file : string -> string -> gmap string pyval -> res string;
  (** [Template(text).render( **context)] *)
  render_text : string -> gmap string pyval -> res string
}.

(** The renderer object: [self.env] holds the directory its loader reads
    from, when there is one. *)
Record EmailTemplate : Type := {
  template_dir : option string;
  tpl_env : option string
}.

(** [EmailTemplate.__init__] *)
Definition new_template (j : Jinja) (dir : option string) : EmailTemplate :=
  let template_dir := if truthy_opt dir then dir else None in
  {| template_dir := template_dir;
     tpl_env := match template_dir with
                | Some d => if dir_exists j d then Some d else None
                | None => None
                end |}.

Section Templates.

Variable j : Jinja.
Variable self : EmailTemplate.

Definition render_template (template_name : string)
           (context : gmap string pyval) : res string :=
  match tpl_env self with
  | None =>
      Raise (RuntimeError "Template directory not set or does not exist")
  | Some dir => render_file j dir template_name context
  end.

Definition render_string (template_string : string)
           (context : gmap string pyval) : res string :=
  render_text j template_string context.

Definition render_html_email (template_name : string)
           (context : gmap string pyval)
           (subject_template : option string) : res (pyval * string) :=
  html_body ← render_template template_name context;
  subject ←
    (if truthy_opt subject_template
     then s ← render_string (default EmptyString subject_template) context;
          Ok (PStr s)
     else Ok (default (PStr "No Subject") (context !! "subject"%string)));
  Ok (subject, html_body).

Definition render_text_email (template_name : string)
           (context : gmap string pyval)
           (subject_template : option string) : res (pyval * string) :=
  text_body ← render_template template_name context;
  subject ←
    (if truthy_opt subject_template
     then s ← render_string (default EmptyString subject_template) context;
          Ok (PStr s)
     else Ok (default (PStr "No Subject") (context !! "subject"%string)));
  Ok (subject, text_body).

End Templates.

(* ===================================================================== *)
(** ** The address form of the specification *)
(* ===================================================================== *)

(** [local-part@domain.tld]: a non-empty local part over letters, digits
    and [._%+-], a non-empty domain over letters, digits and [.-], and a
    final label of two or more letters after the last dot. *)
Definition address_form (s : list ascii) : Prop :=
  exists local domain tld,
    s = local ++ "@"%char :: domain ++ "."%char :: tld
    /\ local <> [] /\ Forall (fun c => local_char c = true) local
    /\ domain <> [] /\ Forall (fun c => domain_char c = true) domain
    /\ (2 <= length tld)%nat /\ Forall (fun c => is_letter c = true) tld.

(* ===================================================================== *)
(** ** Observing a run *)
(* ===================================================================== *)

Definition is_quit (c : Call) : bool :=
  match c with Quit => true | _ => false end.

(** The calls [connect] makes: opening the socket, the upgrade and the
    authentication. *)
Definition is_connect_call (c : Call) : bool :=
  match c with
  | OpenPlain _ _ _ | OpenSSL _ _ _ | StartTLS | Login _ _ => true
  | _ => false
  end.

(** The call that opens the socket, and the connection object it gives. *)
Definition open_call (config : EmailConfig) : Call :=
  if use_ssl config
  then OpenSSL (smtp_server config) (smtp_port config) (timeout config)
  else OpenPlain (smtp_server config) (smtp_port config) (timeout config).

Definition server_kind (config : EmailConfig) : Server :=
  if use_ssl config then SMTP_SSL else SMTP.

(** The answers of the transport to the calls [new] made one after the
    other once [hist] has been made. *)
Fixpoint answers (smtp : Transport) (hist new : list Call)
  : list (Call * option exn) :=
  match new with
  | [] => []
  | c :: rest => (c, smtp hist c) :: answers smtp (hist ++ [c]) rest
  end.

(** Some call other than [quit] raised. *)
Definition raised (a : Call * option exn) : bool :=
  negb (is_quit a.1) && match a.2 with Some _ => true | None => false end.

(** A transport that, from the history [hist] on, accepts every call
    except possibly [quit]. *)
Definition accepts (smtp : Transport) (hist : list Call) : Prop :=
  forall new c, is_quit c = false -> smtp (hist ++ new) c = None.

(** The addresses of an address field, and of an optional one (a falsy
    field counts as absent). *)
Definition addresses (a : EmailAddress) : list string :=
  match a with
  | Single s => [s]
  | Several l => l
  end.

Definition addresses_opt (o : option EmailAddress) : list string :=
  match o with
  | Some a => if truthy_addr a then addresses a else []
  | None => []
  end.

(** The validation phase of [send_email], as one computation. *)
Definition validation (message : EmailMessage)
  : res (list string * list string * list string) :=
  (if negb (truthy_addr (to_emails message))
   then Raise (ValueError "No recipient email addresses provided")
   else Ok tt);;
  to_emails ← validate_emails (to_emails message);
  cc_emails ← validate_optional (cc_emails message);
  bcc_emails ← validate_optional (bcc_emails message);
  Ok (to_emails, cc_emails, bcc_emails).

(** [finally: self.close()] after the result [r] has been computed. *)
Definition finish (smtp : Transport) (r : EmailResult) : M EmailResult :=
  fun st =>
    match close smtp st with
    | (Ok _, st') => (Ok r, st')
    | (Raise e, st') => (Raise e, st')
    end.

Definition sent (all_recipients : list string) : EmailResult :=
  {| success := true; message_id := None; error_message := None;
     recipients := Some all_recipients |}.

Definition record_call (c : Call) (st : State) : State :=
  {| _server := _server st; calls := calls st ++ [c] |}.

(** The part built for an attachment, when it can be built. *)
Definition built (env : Env) (attachment : EmailAttachment)
  : option MIMEPart :=
  match attachment_part env attachment with
  | Ok mime_part => Some mime_part
  | Raise _ => None
  end.

(** The headers a message gives rise to besides the two of
    [MIMEMultipart()]. *)
Definition custom_headers (message : EmailMessage) : list Header :=
  map (fun kv => header kv.1 kv.2) (default [] (headers message)).

Definition message_headers (config : EmailConfig) (message : EmailMessage)
           (to cc : list string) : list Header :=
  [ header "From" (or_else (from_email message) (smtp_user config));
    header "To" (Py.join ", " to);
    header "Subject" (subject message) ]
  ++ (match cc with [] => [] | _ => [header "Cc" (Py.join ", " cc)] end)
  ++ (if truthy_opt (reply_to message)
      then [header "Reply-To" (default EmptyString (reply_to message))]
      else [])
  ++ custom_headers message.

(** The message with another sender override. *)
Definition with_from_email (o : option string) (message : EmailMessage)
  : EmailMessage :=
  {| to_emails := to_emails message; subject := subject message;
     body := body message; is_html := is_html message;
     from_email := o;
     cc_emails := cc_emails message; bcc_emails := bcc_emails message;
     reply_to := reply_to message; headers := headers message;
     attachments := attachments message;
     template_data := template_data message |}.

(** A message the validation phase lets through: some recipient, and
    every address of [to], [cc] and [bcc] accepted by [validate_email]. *)
Definition valid_message (message : EmailMessage) : bool :=
  truthy_addr (to_emails message)
  && forallb validate_email (addresses (to_emails message))
  && forallb validate_email (addresses_opt (cc_emails message))
  && forallb validate_email (addresses_opt (bcc_emails message)).

(** The content type [create_attachment] works with: the declared one,
    or else the guessed one. *)
Definition resolved_content_type (env : Env) (a : EmailAttachment)
  : string :=
  default (get_content_type env (AsPath (Path env (file_path a))))
    (content_type a).

(** The display name [create_attachment] works with: the given one, or
    else the name of the path. *)
Definition resolved_filename (env : Env) (a : EmailAttachment) : string :=
  default (path_name env (Path env (file_path a))) (filename a).

(** The texts of a header: its name, its value, and the names and
    values of its parameters. *)
Definition header_texts (h : Header) : list string :=
  h_name h :: h_value h :: flat_map (fun kv => [kv.1; kv.2]) (h_params h).

(** An address is mentioned by a header when it occurs in one of the
    texts of the header. *)
Definition header_mentions (address : string) (h : Header) : Prop :=
  exists text, text ∈ header_texts h /\ Py.occurs_in address text.

(** All the headers of a document: its own, then those of its parts. *)
Definition document_headers (doc : MIMEMultipart) : list Header :=
  msg_headers doc ++ flat_map part_headers (msg_parts doc).

(** The fields of a message, other than [bcc_emails], whose text goes
    into a header: the sender, the [to] and [cc] addresses, the subject,
    the reply-to, the custom headers, and for each attachment its content
    type, its file name and its content id. *)
Definition mentioned_elsewhere (env : Env) (config : EmailConfig)
           (message : EmailMessage) (address : string) : Prop :=
  Py.occurs_in address (or_else (from_email message) (smtp_user config))
  \/ (exists a, a ∈ addresses (to_emails message) /\ Py.occurs_in address a)
  \/ Py.occurs_in address (subject message)
  \/ (exists a, a ∈ addresses_opt (cc_emails message)
                /\ Py.occurs_in address a)
  \/ Py.occurs_in address (default EmptyString (reply_to message))
  \/ (exists kv, kv ∈ default [] (headers message)
                 /\ (Py.occurs_in address kv.1 \/ Py.occurs_in address kv.2))
  \/ (exists a, a ∈ default [] (attachments message)
                /\ (Py.occurs_in address (resolved_content_type env a)
                    \/ Py.occurs_in address (resolved_filename env a)
                    \/ Py.occurs_in address
                         (default EmptyString (content_id a)))).

(** The characters an accepted address is made of. *)
Definition address_char (c : ascii) : bool :=
  local_char c || Py.is_char "@" c || Py.is_char Re.newline c.

(** The recipients of a message: [to], then [cc], then [bcc]. *)
Definition all_recipients (message : EmailMessage) : list string :=
  addresses (to_emails message)
  ++ addresses_opt (cc_emails message)
  ++ addresses_opt (bcc_emails message).

(** The body part of a message. *)
Definition body_part (env : Env) (message : EmailMessage) : res MIMEPart :=
  MIMEText env (body message) (if is_html message then "html" else "plain").

(** The document [send_email] assembles for a valid message. *)
Definition document (env : Env) (config : EmailConfig)
           (message : EmailMessage) : res MIMEMultipart :=
  build_message env config message
    (addresses (to_emails message)) (addresses_opt (cc_emails message)).

(** Everything [send_email] does before it contacts the server: the
    validation, then the assembly of the document. *)
Definition prepare (env : Env) (config : EmailConfig)
           (message : EmailMessage)
  : res (list string * list string * list string * MIMEMultipart) :=
  v ← validation message;
  doc ← build_message env config message v.1.1 v.1.2;
  Ok (v, doc).

(** The [quit] that [close] sends when the mailer holds a connection. *)
Definition closing (server : option Server) : list Call :=
  match server with
  | Some _ => [Quit]
  | None => []
  end.

(** The message with another attachment list. *)
Definition with_attachments (atts : option (list EmailAttachment))
           (message : EmailMessage) : EmailMessage :=
  {| to_emails := to_emails message; subject := subject message;
     body := body message; is_html := is_html message;
     from_email := from_email message;
     cc_emails := cc_emails message; bcc_emails := bcc_emails message;
     reply_to := reply_to message; headers := headers message;
     attachments := atts;
     template_data := template_data message |}.

(** The attachments of a message that can be built. *)
Definition buildable (env : Env) (message : EmailMessage)
  : list EmailAttachment :=
  List.filter (fun a => match built env a with Some _ => true | None => false end)
    (default [] (attachments message)).

Definition is_disposition (h : Header) : bool :=
  String.eqb (h_name h) "Content-Disposition".

(** The calls [connect] means to make, in order. *)
Definition connect_sequence (config : EmailConfig) : list Call :=
  open_call config
  :: (if negb (use_ssl config) && use_tls config then [StartTLS] else [])
  ++ [Login (smtp_user config) (smtp_pass config)].

(** Making the calls of [seq] one after the other up to the first that
    raises: the calls made, and whether all of them returned. *)
Fixpoint until_raise (smtp : Transport) (hist seq : list Call)
  : list Call * bool :=
  match seq with
  | [] => ([], true)
  | c :: rest =>
      match smtp hist c with
      | Some _ => ([c], false)
      | None =>
          let '(made, ok) := until_raise smtp (hist ++ [c]) rest in
          (c :: made, ok)
      end
  end.

(** The message with other custom headers. *)
Definition with_headers (hs : option (list (string * string)))
           (message : EmailMessage) : EmailMessage :=
  {| to_emails := to_emails message; subject := subject message;
     body := body message; is_html := is_html message;
     from_email := from_email message;
     cc_emails := cc_emails message; bcc_emails := bcc_emails message;
     reply_to := reply_to message; headers := hs;
     attachments := attachments message;
     template_data := template_data message |}.

(** The keyword arguments of [send_simple_email] and
    [send_quick_email], for the optional fields of [EmailMessage] (a
    keyword that is no field, or repeats [to_emails], [subject], [body]
    or [is_html], makes the constructor raise [TypeError] and is not
    covered). *)
Record MessageOptions : Type := {
  opt_from_email : option string;
  opt_cc_emails : option EmailAddress;
  opt_bcc_emails : option EmailAddress;
  opt_reply_to : option string;
  opt_headers : option (list (string * string));
  opt_attachments : option (list EmailAttachment);
  opt_template_data : option (gmap string pyval)
}.

Definition no_options : MessageOptions :=
  {| opt_from_email := None; opt_cc_emails := None; opt_bcc_emails := None;
     opt_reply_to := None; opt_headers := None; opt_attachments := None;
     opt_template_data := None |}.

(** [EmailMessage(to_emails=..., subject=..., body=..., is_html=...,
    **kwargs)] *)
Definition make_message (to : EmailAddress) (subject body : string)
           (is_html : bool) (kwargs : MessageOptions) : EmailMessage :=
  {| to_emails := to; subject := subject; body := body; is_html := is_html;
     from_email := opt_from_email kwargs;
     cc_emails := opt_cc_emails kwargs;
     bcc_emails := opt_bcc_emails kwargs;
     reply_to := opt_reply_to kwargs;
     headers := opt_headers kwargs;
     attachments := opt_attachments kwargs;
     template_data := opt_template_data kwargs |}.

(** [SMTPMailer.send_simple_email] *)
Definition send_simple_email (env : Env) (smtp : Transport)
           (config : EmailConfig) (to : EmailAddress)
           (subject body : string) (is_html : bool)
           (kwargs : MessageOptions) : M EmailResult :=
  send_email env smtp config (make_message to subject body is_html kwargs).

(** [with SMTPMailer(config) as mailer: body]: [__enter__] returns the
    mailer, [__exit__] calls [close] on every exit and lets an exception
    of the body through. *)
Definition with_mailer {A} (smtp : Transport) (body : M A) : M A :=
  try_finally body (close smtp).

(** [send_quick_email]: a new mailer ([_server] is [None]) on a
    transport that has seen the calls [hist]. *)
Definition send_quick_email (env : Env) (smtp : Transport)
           (config : EmailConfig) (to : EmailAddress)
           (subject body : string) (is_html : bool)
           (kwargs : MessageOptions) (hist : list Call)
  : res EmailResult * State :=
  with_mailer smtp
    (send_simple_email env smtp config to subject body is_html kwargs)
    {| _server := None; calls := hist |}.

(** The configuration with another retry count, and the message with
    other template data. *)
Definition with_max_retries (n : Z) (config : EmailConfig) : EmailConfig :=
  {| smtp_server := smtp_server config; smtp_port := smtp_port config;
     smtp_user := smtp_user config; smtp_pass := smtp_pass config;
     use_tls := use_tls config; use_ssl := use_ssl config;
     timeout := timeout config; max_retries := n |}.

Definition with_template_data (d : option (gmap string pyval))
           (message : EmailMessage) : EmailMessage :=
  {| to_emails := to_emails message; subject := subject message;
     body := body message; is_html := is_html message;
     from_email := from_email message;
     cc_emails := cc_emails message; bcc_emails := bcc_emails message;
     reply_to := reply_to message; headers := headers message;
     attachments := attachments message; template_data := d |}.

(** The directories for which [EmailTemplate.__init__] leaves
    [self.env] at [None]. *)
Definition no_directory (j : Jinja) (dir : option string) : Prop :=
  dir = None \/ dir = Some EmptyString
  \/ exists d, dir = Some d /\ dir_exists j d = false.

Definition is_open_call (c : Call) : bool :=
  match c with OpenPlain _ _ _ | OpenSSL _ _ _ => true | _ => false end.

Definition is_sendmail_call (c : Call) : bool :=
  match c with Sendmail _ _ _ => true | _ => false end.

(** Test doubles for the transport. *)
Definition accepting : Transport := fun _ _ => None.

Definition rejecting_login : Transport :=
  fun _ c =>
    match c with
    | Login _ _ => Some (SMTPException "authentication failed")
    | _ => None
    end.

Definition unreachable : Transport :=
  fun _ _ => Some (OSError "connection refused").

Definition rejecting_sendmail : Transport :=
  fun _ c =>
    match c with
    | Sendmail _ _ _ => Some (SMTPException "recipients refused")
    | _ => None
    end.

Definition demo_config : EmailConfig :=
  {| smtp_server := "smtp.example.com"; smtp_port := 587;
     smtp_user := "me@example.com"; smtp_pass := "secret";
     use_tls := true; use_ssl := false; timeout := 30; max_retries := 3 |}.

(* ===================================================================== *)
(** ** Concrete inputs *)
(* ===================================================================== *)

Definition plain_message (to : EmailAddress) : EmailMessage :=
  {| to_emails := to; subject := "Hello"; body := "Hi there";
     is_html := false; from_email := None; cc_emails := None;
     bcc_emails := None; reply_to := None; headers := None;
     attachments := None; template_data := None |}.

(** Stand-ins for [pathlib] on POSIX: [str(Path(s))] drops the empty
    and the [.] components of [s] (so doubled and trailing slashes go),
    keeps one leading slash, or two when [s] starts with exactly two,
    and is [.] when nothing is left; [name] is the last component, and
    the empty string for [.] and for the root. *)
Fixpoint split_all (sep : ascii) (l : list ascii) : list (list ascii) :=
  match l with
  | [] => [[]]
  | c :: l' =>
      match split_all sep l' with
      | x :: rest =>
          if Py.is_char sep c then [] :: x :: rest else (c :: x) :: rest
      | [] => [[c]]
      end
  end.

Fixpoint lstrip (sep : ascii) (l : list ascii) : list ascii :=
  match l with
  | [] => []
  | c :: l' => if Py.is_char sep c then lstrip sep l' else l
  end.

Definition is_component (x : list ascii) : bool :=
  match x with
  | [] => false
  | [c] => negb (Py.is_char "." c)
  | _ => true
  end.

Definition posix_text (s : string) : string :=
  let part := Py.chars s in
  let stripped := lstrip "/" part in
  let root :=
    match (length part - length stripped)%nat with
    | 0%nat => EmptyString
    | 2%nat => "//"%string
    | _ => "/"%string
    end in
  let text :=
    String.append root
      (Py.join "/"
         (map Py.str (List.filter is_component (split_all "/" stripped)))) in
  if String.eqb text EmptyString then "."%string else text.

Definition last_component (p : string) : string :=
  let l := Py.chars p in
  Py.str (Py.slice_from l (Py.rfind "/" l + 1)).

Definition posix_name (text : string) : string :=
  if String.eqb text "." then EmptyString else last_component text.

(** A stand-in for [as_string()]: it refuses a header value with an
    embedded header (a newline, then characters other than space and
    tab, then a colon; the pattern [\n[^ \t]+:] searched by
    [email.header]), and otherwise writes the headers and the parts
    line by line. *)
Definition not_blank (c : ascii) : bool :=
  negb (Py.is_char " " c || Py.is_char "009" c).

Definition embedded_header_pattern : Re.pattern :=
  [ Re.Lit Re.newline; Re.Rep not_blank 1; Re.Lit ":" ].

Fixpoint search_from (p : Re.pattern) (pos : nat) (s : list ascii) : bool :=
  Re.run p pos s
  || match s with
     | [] => false
     | _ :: s' => search_from p (S pos) s'
     end.

Definition has_embedded_header (h : Header) : bool :=
  search_from embedded_header_pattern 0 (Py.chars (h_value h)).

Definition line (s : string) : string :=
  String.append s (String Re.newline EmptyString).

Definition write_header (h : Header) : string :=
  line (String.append (h_name h)
          (String.append ": "
             (String.append (h_value h)
                (String.concat EmptyString
                   (map (fun kv =>
                           String.append "; "
                             (String.append kv.1 (String.append "=" kv.2)))
                      (h_params h)))))).

Definition write_part (p : MIMEPart) : string :=
  String.append (line "--boundary")
    (String.append (String.concat EmptyString (map write_header (part_headers p)))
       (String.append (line EmptyString) (line (part_payload p)))).

Definition demo_as_string (doc : MIMEMultipart) : res string :=
  if existsb has_embedded_header
       (msg_headers doc ++ flat_map part_headers (msg_parts doc))
  then Raise (MessageError
                "header value appears to contain an embedded header")
  else Ok (String.append
             (String.concat EmptyString (map write_header (msg_headers doc)))
             (String.append (line EmptyString)
                (String.append
                   (String.concat EmptyString (map write_part (msg_parts doc)))
                   (line "--boundary--")))).

(** A stand-in for the encoding step of [MIMEText]: us-ascii when every
    character is below 128, utf-8 otherwise; the payload is left as the
    text, as [b64encode] is the identity in the environment below. *)
Definition demo_encode_text (text : string) : res (text_encoding * string) :=
  Ok (if forallb (fun c => Py.code c <? 128) (Py.chars text)
      then UsAscii else Utf8, text).

(** A file system with one readable file, and the stand-ins for the
    libraries. *)
Definition demo_env : Env :=
  {| fs := {[ "/srv/report.pdf"%string := Readable "%PDF-1.7" ]};
     path_text := posix_text;
     path_name := posix_name;
     guess_type := fun _ => Some "application/pdf"%string;
     b64encode := fun data => data;
     encode_text := demo_encode_text;
     as_string := demo_as_string |}.

(** An environment whose [MIMEText] cannot encode any text. *)
Definition unencodable_env : Env :=
  {| fs := fs demo_env; path_text := path_text demo_env;
     path_name := path_name demo_env; guess_type := guess_type demo_env;
     b64encode := b64encode demo_env;
     encode_text := fun _ =>
       Raise (UnicodeEncodeError "surrogates not allowed");
     as_string := demo_as_string |}.

(** A message whose subject carries an embedded header. *)
Definition embedded_header_message : EmailMessage :=
  {| to_emails := Single "ann@example.org";
     subject := String.append (line "Hi") "Bcc: evil@x.io";
     body := "Hi there"; is_html := false; from_email := None;
     cc_emails := None; bcc_emails := None; reply_to := None;
     headers := None; attachments := None; template_data := None |}.

(** A message whose sender puts their own address in [bcc]. *)
Definition self_bcc_message : EmailMessage :=
  {| to_emails := Single "ann@example.org"; subject := "Minutes";
     body := "See attached."; is_html := false; from_email := None;
     cc_emails := None;
     bcc_emails := Some (Several ["me@example.com"%string]);
     reply_to := None; headers := None; attachments := None;
     template_data := None |}.

Definition attachment_at (path : string) : EmailAttachment :=
  {| file_path := AsStr path; filename := None; content_type := None;
     content_id := None; is_inline := false |}.

(** A message with two attachments, the first of which does not exist. *)
Definition report_message : EmailMessage :=
  {| to_emails := Single "ann@example.org"; subject := "Report";
     body := "See attached."; is_html := false;
     from_email := Some "reports@example.com"%string;
     cc_emails := None; bcc_emails := None;
     reply_to := None; headers := None;
     attachments := Some [ attachment_at "/srv/missing.txt";
                           attachment_at "/srv/report.pdf" ];
     template_data := None |}.

(** A message with one attachment, whose file is there and whose
    content id carries an embedded header. *)
Definition embedded_content_id_message : EmailMessage :=
  {| to_emails := Single "ann@example.org"; subject := "Report";
     body := "See attached."; is_html := true; from_email := None;
     cc_emails := None; bcc_emails := None;
     reply_to := None; headers := None;
     attachments :=
       Some [ {| file_path := AsStr "/srv/report.pdf"; filename := None;
                 content_type := None;
                 content_id :=
                   Some (String.append (line "logo") "Bcc: evil@x.io");
                 is_inline := true |} ];
     template_data := None |}.

(** A stand-in for the templating engine: it replaces every
    [{{ name }}] by the string the context gives to [name] (by nothing
    when the context has no string there), and knows one template file,
    ["welcome.html"] in the directory ["templates"]. *)
Fixpoint substitute (context : gmap string pyval) (var : option (list ascii))
         (text : list ascii) : list ascii :=
  match var, text with
  | _, [] => []
  | None, "{"%char :: "{"%char :: rest =>
      substitute context (Some []) rest
  | None, c :: rest => c :: substitute context None rest
  | Some name, "}"%char :: "}"%char :: rest =>
      match context !! Py.str (filter (fun c => c <> " "%char) name) with
      | Some (PStr s) => Py.chars s ++ substitute context None rest
      | _ => substitute context None rest
      end
  | Some name, c :: rest => substitute context (Some (name ++ [c])) rest
  end.

Definition mini_jinja : Jinja :=
  {| dir_exists := fun d => String.eqb d "templates";
     render_file := fun dir name context =>
       if String.eqb name "welcome.html"
       then Ok (Py.str (substitute context None
                          (Py.chars "<p>Hello {{user_name}},</p>")))
       else Raise (TemplateError name);
     render_text := fun text context =>
       Ok (Py.str (substitute context None (Py.chars text))) |}.

Definition ann_context : gmap string pyval :=
  {[ "user_name"%string := PStr "Ann" ]}.

(** A message without recipient. *)
Definition no_recipient_message : EmailMessage := plain_message (Several []).


(** ["a@b.co\n"]: an address followed by a newline. *)
Definition address_with_newline : string :=
  Py.str (Py.chars "a@b.co" ++ [Re.newline]).

(** A name whose extension alone is longer than 255 characters:
    ["a."] followed by 300 times ["x"]. *)
Definition long_extension_name : string :=
  Py.str (Py.chars "a." ++ repeat "x"%char 300).

(** A 300-character name that ends in [".txt"]. *)
Definition long_txt_name : string :=
  Py.str (repeat "n"%char 296 ++ Py.chars ".txt").

(* ===================================================================== *)
(** ** Properties of the validator *)
(* ===================================================================== *)

Section Validator.

Lemma rep_spec cls lo k pos s :
  Re.rep cls lo k pos s = true <->
  exists pre post,
    s = pre ++ post /\ Forall (fun c => cls c = true) pre
    /\ (lo <= length pre)%nat /\ k (pos + length pre)%nat post = true.
Proof.
  revert lo pos. induction s as [|c s IH]; intros lo pos; simpl.
  - rewrite andb_true_iff, Nat.eqb_eq. split.
    + intros [-> Hk]. exists [], []. simpl. rewrite Nat.add_0_r. auto.
    + intros (pre & post & Heq & _ & Hlo & Hk).
      symmetry in Heq. apply app_eq_nil in Heq as [-> ->].
      simpl in *. rewrite Nat.add_0_r in Hk. split; [lia | done].
  - rewrite orb_true_iff, !andb_true_iff, Nat.eqb_eq, IH. split.
    + intros [[Hc (pre & post & -> & Hall & Hlo & Hk)] | [-> Hk]].
      * exists (c :: pre), post. simpl. repeat split; auto; try lia.
        by rewrite Nat.add_succ_r.
      * exists [], (c :: s). simpl. rewrite Nat.add_0_r. auto.
    + intros (pre & post & Heq & Hall & Hlo & Hk).
      destruct pre as [|c' pre]; simpl in *.
      * right. subst post. rewrite Nat.add_0_r in Hk. split; [lia | done].
      * injection Heq as <- ->. inversion Hall; subst. left. split; auto.
        exists pre, post. repeat split; auto; try lia.
        by rewrite Nat.add_succ_r in Hk.
Qed.

Lemma is_char_true a c : Py.is_char a c = true <-> a = c.
Proof. apply Ascii.eqb_eq. Qed.

Lemma is_char_refl a : Py.is_char a a = true.
Proof. apply Ascii.eqb_refl. Qed.

Lemma at_eol_spec s :
  Re.at_eol s = true <-> s = [] \/ s = [Re.newline].
Proof.
  destruct s as [|c [|c' s]]; simpl; split; auto; try done.
  - intros H. right. apply is_char_true in H. by subst.
  - intros [H|H]; [done|]. injection H as <-. apply is_char_refl.
  - intros [H|H]; done.
Qed.

(** What the pattern of [validate_email] accepts: the address form,
    optionally followed by one newline. *)
Lemma run_email_pattern s :
  Re.run email_pattern 0 s = true <->
  address_form s \/ exists s', s = s' ++ [Re.newline] /\ address_form s'.
Proof.
  unfold email_pattern. simpl Re.run. rewrite rep_spec. split.
  - intros (l & post & -> & Hl & Hlo & Hk).
    destruct post as [|c post]; [done|].
    apply andb_true_iff in Hk as [Hc Hk]. apply is_char_true in Hc as <-.
    apply rep_spec in Hk as (d & post' & -> & Hd & Hdlo & Hk).
    destruct post' as [|c post']; [done|].
    apply andb_true_iff in Hk as [Hc Hk]. apply is_char_true in Hc as <-.
    apply rep_spec in Hk as (t & rest & -> & Ht & Htlo & Hk).
    rewrite andb_true_r in Hk. apply at_eol_spec in Hk as [-> | ->].
    + left. exists l, d, t. rewrite app_nil_r.
      repeat split; auto; intros ->; simpl in *; lia.
    + right. exists (l ++ "@"%char :: d ++ "."%char :: t). split.
      * by rewrite <- !app_assoc, <- !app_comm_cons, <- app_assoc.
      * exists l, d, t. repeat split; auto; intros ->; simpl in *; lia.
  - intros H.
    assert (exists l d t rest,
               s = l ++ "@"%char :: d ++ "."%char :: t ++ rest
               /\ l <> [] /\ Forall (fun c => local_char c = true) l
               /\ d <> [] /\ Forall (fun c => domain_char c = true) d
               /\ (2 <= length t)%nat
               /\ Forall (fun c => is_letter c = true) t
               /\ Re.at_eol rest = true)
      as (l & d & t & rest & -> & Hl0 & Hl & Hd0 & Hd & Ht2 & Ht & Hr).
    { destruct H as [(l & d & t & -> & ?) | (s' & -> & (l & d & t & -> & ?))].
      - exists l, d, t, []. rewrite app_nil_r. intuition.
      - exists l, d, t, [Re.newline]. split.
        + by rewrite <- !app_assoc, <- !app_comm_cons, <- app_assoc.
        + intuition. }
    exists l, ("@"%char :: d ++ "."%char :: t ++ rest).
    repeat split; auto.
    { destruct l; [done | simpl; lia]. }
    apply andb_true_iff. split; [apply is_char_refl|].
    apply rep_spec. exists d, ("."%char :: t ++ rest).
    repeat split; auto.
    { destruct d; [done | simpl; lia]. }
    apply andb_true_iff. split; [apply is_char_refl|].
    apply rep_spec. exists t, rest. repeat split; auto.
    by rewrite andb_true_r.
Qed.

Lemma validate_email_spec email :
  validate_email email = true <->
  address_form (Py.chars email)
  \/ exists s', Py.chars email = s' ++ [Re.newline] /\ address_form s'.
Proof. apply run_email_pattern. Qed.

Lemma address_form_last s :
  address_form s -> exists c, last s = Some c /\ is_letter c = true.
Proof.
  intros (l & d & t & -> & _ & _ & _ & _ & Ht2 & Ht).
  destruct (last t) as [c|] eqn:Hlast.
  - exists c. split.
    + change ("@"%char :: d ++ "."%char :: t)
        with (("@"%char :: d) ++ ("."%char :: t)).
      rewrite !last_app, last_cons. by rewrite Hlast.
    + apply last_Some in Hlast as [t' ->].
      apply Forall_app in Ht as [_ Ht]. by inversion Ht.
  - apply last_None in Hlast. subst t. simpl in Ht2. lia.
Qed.

(** The three addresses the specification names. *)
Lemma validate_email_examples :
  validate_email "a.b+c@example.co" = true
  /\ validate_email "not-an-email" = false
  /\ validate_email "a@b" = false.
Proof. repeat split; reflexivity. Qed.

(** C6 (the code departs from the claim): [validate_email] accepts
    ["a@b.co\n"], a string that is not of the form
    [local-part@domain.tld] since its last character is a newline and
    not a letter: the [$] of the pattern also matches just before a
    final newline. *)
Theorem validate_email_accepts_trailing_newline :
  validate_email address_with_newline = true
  /\ ~ address_form (Py.chars address_with_newline).
Proof.
  split; [reflexivity|].
  intros H. apply address_form_last in H as (c & Hlast & Hc).
  vm_compute in Hlast. injection Hlast as <-. vm_compute in Hc. done.
Qed.

(** Apart from that final newline the claim of C6 holds: a string with
    no newline at its end is accepted exactly when it has the address
    form. *)
Lemma validate_email_iff_form email :
  last (Py.chars email) <> Some Re.newline ->
  (validate_email email = true <-> address_form (Py.chars email)).
Proof.
  intros Hlast. rewrite validate_email_spec. split; [|auto].
  intros [H | (s' & Heq & _)]; [done|].
  exfalso. apply Hlast. rewrite Heq. by rewrite last_snoc.
Qed.

End Validator.

(* ===================================================================== *)
(** ** Properties of [sanitize_filename] *)
(* ===================================================================== *)

Section Sanitize.

Lemma chars_str l : Py.chars (Py.str l) = l.
Proof. apply list_ascii_of_string_of_list_ascii. Qed.

Lemma rfind_from_lower c l i found :
  -1 <= found -> 0 <= i -> -1 <= Py.rfind_from c l i found.
Proof.
  revert i found. induction l as [|x l IH]; intros i found Hf Hi; simpl.
  - done.
  - apply IH; [|lia]. destruct (Py.is_char c x); lia.
Qed.

Lemma rfind_lower c l : -1 <= Py.rfind c l.
Proof. apply rfind_from_lower; lia. Qed.

Lemma slice_split p k :
  0 <= k -> Py.slice_to p k ++ Py.slice_from p k = p.
Proof.
  intros Hk. unfold Py.slice_to, Py.slice_from.
  destruct (0 <=? k) eqn:E; [apply take_drop | lia].
Qed.

Lemma skip_leading_dots_app p i n dotIndex name ext :
  0 <= dotIndex ->
  skip_leading_dots p i n dotIndex = (name, ext) -> name ++ ext = p.
Proof.
  intros Hd. revert i. induction n as [|n IH]; intros i; simpl.
  - intros [= <- <-]. apply app_nil_r.
  - destruct (p !! Z.to_nat i) as [c|].
    + destruct (negb (Py.is_char "." c)).
      * intros [= <- <-]. by apply slice_split.
      * apply IH.
    + intros [= <- <-]. by apply slice_split.
Qed.

(** [os.path.splitext] cuts its argument in two. *)
Lemma splitext_app p name ext : splitext p = (name, ext) -> name ++ ext = p.
Proof.
  unfold splitext. destruct (Py.rfind "/" p <? Py.rfind "." p) eqn:E.
  - apply skip_leading_dots_app.
    pose proof (rfind_lower "/" p). lia.
  - intros [= <- <-]. apply app_nil_r.
Qed.

(** The replacement: the result of the substitution has the length of
    the name, holds no unsafe character, and differs from the name only
    where the name has one, where it has an underscore. *)
Lemma sub_class_unsafe l :
  length (Re.sub_class unsafe_char "_" l) = length l
  /\ forall (i : nat) c, l !! i = Some c ->
       Re.sub_class unsafe_char "_" l !! i
       = Some (if unsafe_char c then "_"%char else c).
Proof.
  unfold Re.sub_class. split; [apply length_map|].
  intros i c Hi. by rewrite list_lookup_fmap, Hi.
Qed.

(** A name of at most 255 characters is only substituted. *)
Lemma sanitize_filename_short filename :
  (length (Py.chars filename) <= 255)%nat ->
  Py.chars (sanitize_filename filename)
  = Re.sub_class unsafe_char "_" (Py.chars filename).
Proof.
  intros Hlen. unfold sanitize_filename.
  destruct (255 <? _) eqn:E.
  - apply Z.ltb_lt in E. unfold Py.len, Re.sub_class in E.
    rewrite length_map in E. lia.
  - apply chars_str.
Qed.

(** A longer name whose extension has at most 255 characters comes
    back with exactly 255 characters: the first [255 - len(ext)]
    characters of the stem, then the whole extension. *)
Lemma sanitize_filename_truncates filename name ext :
  let sanitized := Re.sub_class unsafe_char "_" (Py.chars filename) in
  (255 < length sanitized)%nat ->
  splitext sanitized = (name, ext) ->
  (length ext <= 255)%nat ->
  Py.chars (sanitize_filename filename)
  = take (255 - length ext) name ++ ext
  /\ length (Py.chars (sanitize_filename filename)) = 255%nat.
Proof.
  intros sanitized Hlen Hsplit Hext. unfold sanitize_filename.
  fold sanitized. rewrite Hsplit.
  destruct (255 <? Py.len sanitized) eqn:E.
  2:{ apply Z.ltb_ge in E. unfold Py.len in E. lia. }
  rewrite chars_str. unfold Py.slice_to, Py.len.
  destruct (0 <=? 255 - Z.of_nat (length ext)) eqn:E'; [|lia].
  replace (Z.to_nat (255 - Z.of_nat (length ext)))
    with (255 - length ext)%nat by lia.
  split; [done|].
  apply splitext_app in Hsplit.
  assert (length name + length ext = length sanitized)%nat as Hsum
      by (by rewrite <- Hsplit, length_app).
  rewrite length_app, length_take. lia.
Qed.

(** The two examples of the specification. *)
Lemma sanitize_filename_examples :
  sanitize_filename "a<b>c.txt" = "a_b_c.txt"%string
  /\ length (Py.chars long_txt_name) = 300%nat
  /\ length (Py.chars (sanitize_filename long_txt_name)) = 255%nat
  /\ drop 251 (Py.chars (sanitize_filename long_txt_name))
     = Py.chars ".txt".
Proof. repeat split; vm_compute; reflexivity. Qed.

(** C7 (the code departs from the claim): on ["a."] followed by 300
    times ["x"] the substituted name has 302 characters, more than 255,
    and [sanitize_filename] returns 301 characters: the extension is
    longer than 255, [255 - len(ext)] is negative, and the slice
    [name[:255-len(ext)]] then drops characters from the end of the
    stem instead of limiting the total. *)
Theorem sanitize_filename_long_extension :
  length (Py.chars long_extension_name) = 302%nat
  /\ splitext (Re.sub_class unsafe_char "_" (Py.chars long_extension_name))
     = (Py.chars "a", "."%char :: repeat "x"%char 300)
  /\ Py.chars (sanitize_filename long_extension_name)
     = "."%char :: repeat "x"%char 300
  /\ length (Py.chars (sanitize_filename long_extension_name)) = 301%nat.
Proof. repeat split; vm_compute; reflexivity. Qed.

End Sanitize.

(* ===================================================================== *)
(** ** Properties of [connect] and [close] *)
(* ===================================================================== *)

Ltac unfold_M :=
  unfold server_call, call in *;
  unfold mbind, M_bind, mret, M_ret, bind, ret, raise, try_except,
    try_finally, lift, get_server, set_server in *.

Ltac case_transport :=
  repeat match goal with
    | |- context [match ?smtp ?h ?c with Some _ => _ | None => _ end] =>
        let E := fresh "Ans" in destruct (smtp h c) eqn:E; simpl
    end.

Section Connection.

Variable smtp : Transport.
Variable config : EmailConfig.

Lemma close_spec st :
  exists st',
    close smtp st = (Ok tt, st')
    /\ _server st' = None
    /\ calls st' = calls st ++ match _server st with
                               | Some _ => [Quit]
                               | None => []
                               end.
Proof.
  unfold close. unfold_M. destruct st as [[s|] cs]; simpl.
  - case_transport; eexists; repeat split; reflexivity.
  - eexists; repeat split. by rewrite app_nil_r.
Qed.

Lemma connect_spec st :
  exists b st' new,
    connect smtp config st = (Ok b, st')
    /\ calls st' = calls st ++ new
    /\ (exists rest, new = open_call config :: rest)
    /\ Forall (fun c => is_connect_call c = true) new
    /\ (b = true <-> Forall (fun a => a.2 = None)
                       (answers smtp (calls st) new))
    /\ _server st'
       = match smtp (calls st) (open_call config) with
         | None => Some (server_kind config)
         | Some _ => _server st
         end.
Proof.
  unfold connect, open_call, server_kind. unfold_M.
  destruct st as [s cs].
  destruct (use_ssl config), (use_tls config); simpl; case_transport.
  all: eexists _, _, _; split; [reflexivity|]; simpl.
  all: split; [rewrite <- ?app_assoc; reflexivity|].
  all: split; [eexists; reflexivity|].
  all: split; [repeat constructor|].
  all: split; [|reflexivity].
  all: simpl; rewrite ?Forall_cons, ?Forall_nil; simpl.
  all: intuition congruence.
Qed.

End Connection.

Lemma connect_until_raise smtp config st :
  exists st',
    connect smtp config st
    = (Ok (until_raise smtp (calls st) (connect_sequence config)).2, st')
    /\ calls st'
       = calls st ++ (until_raise smtp (calls st) (connect_sequence config)).1
    /\ _server st'
       = match smtp (calls st) (open_call config) with
         | None => Some (server_kind config)
         | Some _ => _server st
         end.
Proof.
  unfold connect, connect_sequence, open_call, server_kind. unfold_M.
  destruct st as [s cs].
  destruct (use_ssl config), (use_tls config); simpl; case_transport.
  all: eexists; split; [reflexivity|]; simpl.
  all: rewrite <- ?app_assoc; simpl; split; reflexivity.
Qed.

Lemma until_raise_sublist smtp hist seq c :
  c ∈ (until_raise smtp hist seq).1 -> c ∈ seq.
Proof.
  revert hist. induction seq as [|x seq IH]; intros hist; simpl; [done|].
  destruct (smtp hist x).
  - simpl. intros ->%list_elem_of_singleton. by left.
  - destruct (until_raise smtp (hist ++ [x]) seq) as [made ok] eqn:E.
    simpl. intros [->|Hin]%elem_of_cons; [by left|].
    right. apply (IH (hist ++ [x])). by rewrite E.
Qed.

Lemma until_raise_all smtp hist seq :
  (until_raise smtp hist seq).2 = true ->
  (until_raise smtp hist seq).1 = seq.
Proof.
  revert hist. induction seq as [|x seq IH]; intros hist; simpl; [done|].
  destruct (smtp hist x); [done|].
  specialize (IH (hist ++ [x])).
  destruct (until_raise smtp (hist ++ [x]) seq) as [made ok].
  simpl in *. intros Hok. by rewrite (IH Hok).
Qed.

Lemma until_raise_head smtp hist c rest :
  exists made,
    (until_raise smtp hist (c :: rest)).1 = c :: made
    /\ ((until_raise smtp hist (c :: rest)).2 = true ->
        smtp hist c = None).
Proof.
  simpl. destruct (smtp hist c).
  - exists []. done.
  - destruct (until_raise smtp (hist ++ [c]) rest) as [made ok].
    exists made. done.
Qed.

Lemma until_raise_prefix smtp hist seq :
  exists rest, seq = (until_raise smtp hist seq).1 ++ rest.
Proof.
  revert hist. induction seq as [|x seq IH]; intros hist; simpl.
  - by exists [].
  - destruct (smtp hist x).
    + by exists seq.
    + destruct (IH (hist ++ [x])) as [rest Hrest].
      destruct (until_raise smtp (hist ++ [x]) seq) as [made ok].
      exists rest. simpl in *. by rewrite Hrest at 1.
Qed.

Lemma connect_calls_count smtp config hist :
  (length (List.filter is_open_call
             (until_raise smtp hist (connect_sequence config)).1) <= 1)%nat
  /\ List.filter is_sendmail_call
       (until_raise smtp hist (connect_sequence config)).1 = [].
Proof.
  destruct (until_raise_prefix smtp hist (connect_sequence config))
    as [rest Hrest].
  assert (List.filter is_open_call (connect_sequence config)
          = [open_call config]
          /\ List.filter is_sendmail_call (connect_sequence config) = [])
    as [Hopen Hsend].
  { unfold connect_sequence, open_call.
    by destruct (use_ssl config), (use_tls config). }
  rewrite Hrest, !List.filter_app in Hopen, Hsend. split.
  - apply (f_equal length) in Hopen. rewrite length_app in Hopen.
    change (length [open_call config]) with 1%nat in Hopen. lia.
  - by apply app_eq_nil in Hsend as [-> _].
Qed.

(* ===================================================================== *)
(** ** The validation phase *)
(* ===================================================================== *)

Lemma validate_each_ok l :
  forallb validate_email l = true -> validate_each l = Ok l.
Proof.
  induction l as [|a l IH]; simpl; [done|].
  intros [Ha Hl]%andb_true_iff. rewrite Ha. simpl.
  by rewrite (IH Hl).
Qed.

Lemma validate_emails_addresses a :
  validate_emails a = validate_each (addresses a).
Proof. by destruct a. Qed.

Lemma validate_optional_addresses o :
  validate_optional o = validate_each (addresses_opt o).
Proof.
  destruct o as [a|]; simpl; [|done].
  destruct (truthy_addr a); [apply validate_emails_addresses | done].
Qed.

Lemma valid_message_validation message :
  valid_message message = true ->
  validation message
  = Ok (addresses (to_emails message),
        addresses_opt (cc_emails message),
        addresses_opt (bcc_emails message)).
Proof.
  unfold valid_message, validation.
  intros [[[Ht Hto]%andb_true_iff Hcc]%andb_true_iff Hbcc]%andb_true_iff.
  rewrite Ht, validate_emails_addresses, !validate_optional_addresses.
  rewrite !validate_each_ok by done. reflexivity.
Qed.

Lemma validate_each_inv l l' :
  validate_each l = Ok l' -> l' = l /\ forallb validate_email l = true.
Proof.
  revert l'. induction l as [|a l IH]; intros l'; simpl.
  - by intros [= <-].
  - destruct (validate_email a); simpl; [|done].
    unfold mbind, res_mbind, res_bind.
    destruct (validate_each l) as [v|e]; [|done].
    intros [= <-]. destruct (IH v eq_refl) as [-> Hall]. done.
Qed.

Lemma validate_each_raises pre bad rest :
  forallb validate_email pre = true ->
  validate_email bad = false ->
  validate_each (pre ++ bad :: rest)
  = Raise (ValueError (String.append "Invalid email address: " bad)).
Proof.
  intros Hpre Hbad. induction pre as [|a pre IH]; simpl.
  - by rewrite Hbad.
  - simpl in Hpre. apply andb_true_iff in Hpre as [Ha Hpre].
    rewrite Ha. simpl. by rewrite (IH Hpre).
Qed.

Lemma validation_ok_valid message x :
  validation message = Ok x -> valid_message message = true.
Proof.
  unfold validation, valid_message, mbind, res_mbind, res_bind.
  destruct (truthy_addr (to_emails message)); simpl; [|done].
  rewrite validate_emails_addresses, !validate_optional_addresses.
  destruct (validate_each (addresses (to_emails message)))
    as [to|] eqn:Hto; [|done].
  destruct (validate_each (addresses_opt (cc_emails message)))
    as [cc|] eqn:Hcc; [|done].
  destruct (validate_each (addresses_opt (bcc_emails message)))
    as [bcc|] eqn:Hbcc; [|done].
  intros _.
  apply validate_each_inv in Hto as [_ ->].
  apply validate_each_inv in Hcc as [_ ->].
  apply validate_each_inv in Hbcc as [_ ->]. done.
Qed.

(* ===================================================================== *)
(** ** More on the validator: [validate_emails], accepted addresses *)
(* ===================================================================== *)

(** X1: [validate_emails] returns a list exactly when every address it
    is given is accepted by [validate_email], and the list it returns is
    then the input itself, a single address becoming a one-element
    list: nothing is dropped, reordered or rewritten. *)
Theorem validate_emails_returns_input emails l :
  validate_emails emails = Ok l
  <-> l = addresses emails
      /\ forallb validate_email (addresses emails) = true.
Proof.
  rewrite validate_emails_addresses. split.
  - apply validate_each_inv.
  - intros [-> Hall]. by apply validate_each_ok.
Qed.

(** X2: [validate_emails] fails fast: when the addresses before [bad]
    are all accepted and [bad] is not, it raises the [ValueError] that
    names [bad], whatever follows [bad] in the list. *)
Theorem validate_emails_first_invalid pre bad rest :
  forallb validate_email pre = true ->
  validate_email bad = false ->
  validate_emails (Several (pre ++ bad :: rest))
  = Raise (ValueError (String.append "Invalid email address: " bad)).
Proof. intros Hpre Hbad. by apply validate_each_raises. Qed.

Lemma validate_emails_first_invalid_witness :
  validate_emails (Several ["a@b.com"; "bad"; "also bad"]%string)
  = Raise (ValueError "Invalid email address: bad").
Proof.
  apply (validate_emails_first_invalid ["a@b.com"%string] "bad"
           ["also bad"%string]); reflexivity.
Defined.

Lemma count_occ_class (cls : ascii -> bool) l x :
  Forall (fun c => cls c = true) l -> cls x = false ->
  count_occ ascii_dec l x = 0%nat.
Proof.
  intros Hall Hx. induction Hall as [|c l Hc _ IH]; simpl; [done|].
  destruct (ascii_dec c x) as [->|_]; [congruence | exact IH].
Qed.

Lemma address_form_one_at s :
  address_form s ->
  count_occ ascii_dec s "@"%char = 1%nat
  /\ Forall (fun c => local_char c = true \/ c = "@"%char) s.
Proof.
  intros (l & d & t & -> & _ & Hl & _ & Hd & _ & Ht). split.
  - rewrite count_occ_app. simpl. rewrite count_occ_app. simpl.
    rewrite (count_occ_class local_char l) by done.
    rewrite (count_occ_class domain_char d) by done.
    rewrite (count_occ_class is_letter t) by done.
    reflexivity.
  - assert (forall c, domain_char c = true -> local_char c = true) as Hdl.
    { intros c. unfold local_char, domain_char.
      rewrite !orb_true_iff. tauto. }
    assert (forall c, is_letter c = true -> local_char c = true) as Hll.
    { intros c. unfold local_char. rewrite !orb_true_iff. tauto. }
    rewrite Forall_app, Forall_cons, Forall_app, Forall_cons.
    repeat split; auto.
    + eapply Forall_impl; [exact Hl|]. auto.
    + eapply Forall_impl; [exact Hd|]. auto.
    + eapply Forall_impl; [exact Ht|]. auto.
Qed.

(** X3: an address accepted by [validate_email] has exactly one [@],
    and apart from an optional final newline every character of it is
    an [@] or a character of the class [[a-zA-Z0-9._%+-]]: no space, no
    comma, no angle bracket, no carriage return. *)
Theorem validate_email_one_at email :
  validate_email email = true ->
  exists addr,
    (Py.chars email = addr \/ Py.chars email = addr ++ [Re.newline])
    /\ count_occ ascii_dec addr "@"%char = 1%nat
    /\ Forall (fun c => local_char c = true \/ c = "@"%char) addr.
Proof.
  intros H. apply validate_email_spec in H as [H | (s' & Heq & H)].
  - exists (Py.chars email). split; [by left|]. by apply address_form_one_at.
  - exists s'. split; [by right|]. by apply address_form_one_at.
Qed.

Lemma validate_email_one_at_witness :
  exists addr,
    (Py.chars "a.b+c@example.co" = addr
     \/ Py.chars "a.b+c@example.co" = addr ++ [Re.newline])
    /\ count_occ ascii_dec addr "@"%char = 1%nat
    /\ Forall (fun c => local_char c = true \/ c = "@"%char) addr.
Proof. apply validate_email_one_at. reflexivity. Defined.

(* ===================================================================== *)
(** ** More on [sanitize_filename] *)
(* ===================================================================== *)

Lemma str_chars s : Py.str (Py.chars s) = s.
Proof. apply string_of_list_ascii_of_string. Qed.

Lemma sub_class_safe l :
  Forall (fun c => unsafe_char c = false)
    (Re.sub_class unsafe_char "_" l).
Proof.
  unfold Re.sub_class. apply Forall_fmap, Forall_forall. intros c _. simpl.
  destruct (unsafe_char c) eqn:E; [reflexivity | exact E].
Qed.

Lemma sub_class_id l :
  Forall (fun c => unsafe_char c = false) l ->
  Re.sub_class unsafe_char "_" l = l.
Proof.
  unfold Re.sub_class. induction 1 as [|c l Hc _ IH]; simpl; [done|].
  by rewrite Hc, IH.
Qed.

Lemma slice_to_take l k : exists n, Py.slice_to l k = take n l.
Proof. unfold Py.slice_to. destruct (0 <=? k); eauto. Qed.

Lemma sanitize_filename_chars_safe filename :
  Forall (fun c => unsafe_char c = false)
    (Py.chars (sanitize_filename filename)).
Proof.
  unfold sanitize_filename.
  pose proof (sub_class_safe (Py.chars filename)) as Hsafe.
  destruct (255 <? _).
  - destruct (splitext _) as [name ext] eqn:Hsplit.
    apply splitext_app in Hsplit. rewrite <- Hsplit in Hsafe.
    apply Forall_app in Hsafe as [Hname Hext].
    rewrite chars_str. apply Forall_app. split; [|done].
    destruct (slice_to_take name (255 - Py.len ext)) as [n ->].
    by apply Forall_take.
  - by rewrite chars_str.
Qed.

Lemma sanitize_filename_id filename :
  Forall (fun c => unsafe_char c = false) (Py.chars filename) ->
  (length (Py.chars filename) <= 255)%nat ->
  sanitize_filename filename = filename.
Proof.
  intros Hsafe Hlen. unfold sanitize_filename.
  rewrite (sub_class_id _ Hsafe).
  destruct (255 <? _) eqn:E.
  - apply Z.ltb_lt in E. unfold Py.len in E. lia.
  - apply str_chars.
Qed.

(** X4: the name returned by [sanitize_filename] never holds one of the
    characters of the unsafe class, for every input and on both
    branches (short names and truncated names). *)
Theorem sanitize_filename_no_unsafe_char filename c :
  c ∈ Py.chars (sanitize_filename filename) -> unsafe_char c = false.
Proof.
  pose proof (sanitize_filename_chars_safe filename) as H.
  rewrite Forall_forall in H. apply H.
Qed.

Lemma sanitize_filename_no_unsafe_char_witness :
  unsafe_char "_" = false.
Proof.
  apply (sanitize_filename_no_unsafe_char "a<b>c.txt" "_"%char).
  vm_compute. do 1 right. left.
Defined.

(** X5: a name that is longer than 255 characters after the
    substitution and whose extension (as [os.path.splitext] finds it)
    has at most 255 characters comes back with exactly 255 characters:
    a prefix of its stem followed by the whole extension. *)
Theorem sanitize_filename_limits_length filename :
  (255 < length (Py.chars filename))%nat ->
  (length (splitext (Re.sub_class unsafe_char "_" (Py.chars filename))).2
   <= 255)%nat ->
  length (Py.chars (sanitize_filename filename)) = 255%nat
  /\ exists n,
       Py.chars (sanitize_filename filename)
       = take n (splitext (Re.sub_class unsafe_char "_"
                             (Py.chars filename))).1
         ++ (splitext (Re.sub_class unsafe_char "_"
                         (Py.chars filename))).2.
Proof.
  intros Hlen Hext.
  destruct (splitext (Re.sub_class unsafe_char "_" (Py.chars filename)))
    as [name ext] eqn:Hsplit.
  destruct (sanitize_filename_truncates filename name ext) as [Heq Hl].
  - unfold Re.sub_class. by rewrite length_map.
  - exact Hsplit.
  - exact Hext.
  - split; [exact Hl|]. simpl. eauto.
Qed.

Lemma sanitize_filename_limits_length_witness :
  length (Py.chars (sanitize_filename long_txt_name)) = 255%nat
  /\ exists n,
       Py.chars (sanitize_filename long_txt_name)
       = take n (splitext (Re.sub_class unsafe_char "_"
                             (Py.chars long_txt_name))).1
         ++ (splitext (Re.sub_class unsafe_char "_"
                         (Py.chars long_txt_name))).2.
Proof.
  apply sanitize_filename_limits_length.
  - apply Nat.ltb_lt. vm_compute. reflexivity.
  - apply Nat.leb_le. vm_compute. reflexivity.
Defined.

(** X6: a name of at most 255 characters without unsafe character is
    returned unchanged. *)
Theorem sanitize_filename_keeps_safe_names filename :
  Forall (fun c => unsafe_char c = false) (Py.chars filename) ->
  (length (Py.chars filename) <= 255)%nat ->
  sanitize_filename filename = filename.
Proof. apply sanitize_filename_id. Qed.

Lemma sanitize_filename_keeps_safe_names_witness :
  sanitize_filename "report-2024.pdf" = "report-2024.pdf"%string.
Proof.
  apply sanitize_filename_keeps_safe_names.
  - vm_compute. repeat constructor.
  - apply Nat.leb_le. vm_compute. reflexivity.
Defined.

(** X7: sanitising twice is sanitising once, whenever the first result
    has at most 255 characters (every name of at most 255 characters,
    and every longer name whose extension has at most 255). *)
Theorem sanitize_filename_idempotent filename :
  (length (Py.chars (sanitize_filename filename)) <= 255)%nat ->
  sanitize_filename (sanitize_filename filename)
  = sanitize_filename filename.
Proof.
  intros Hlen. apply sanitize_filename_id; [|done].
  apply sanitize_filename_chars_safe.
Qed.

Lemma sanitize_filename_idempotent_witness :
  sanitize_filename (sanitize_filename long_txt_name)
  = sanitize_filename long_txt_name.
Proof.
  apply sanitize_filename_idempotent.
  apply Nat.leb_le. vm_compute. reflexivity.
Defined.

(* ===================================================================== *)
(** ** Attachments: [create_attachment] and the attachment loop *)
(* ===================================================================== *)

Lemma str_app a b :
  Py.str (a ++ b) = String.append (Py.str a) (Py.str b).
Proof. induction a as [|c a IH]; simpl; [done|]. by rewrite IH. Qed.

(** [split('/', 1)] gives one piece when there is no separator, and
    otherwise the text before the first separator and the text after
    it. *)
Lemma split_once_cases sep l :
  ((sep ∉ l) /\ split_once sep l = [l])
  \/ (exists a b, l = a ++ sep :: b /\ (sep ∉ a)
                  /\ split_once sep l = [a; b]).
Proof.
  induction l as [|c l IH]; simpl.
  - left. split; [apply not_elem_of_nil | done].
  - destruct (Py.is_char sep c) eqn:E.
    + apply is_char_true in E as <-. right. exists [], l.
      split; [done|]. split; [apply not_elem_of_nil | done].
    + assert (sep <> c) as Hne.
      { intros ->. rewrite is_char_refl in E. done. }
      destruct IH as [[Hnot ->] | (a & b & -> & Hnot & ->)].
      * left. split; [|done]. rewrite not_elem_of_cons. done.
      * right. exists (c :: a), b. split; [done|].
        split; [|done]. rewrite not_elem_of_cons. done.
Qed.

Lemma mime_base_of_slash content_type :
  "/"%char ∈ Py.chars content_type ->
  mime_base_of content_type
  = Ok {| part_headers := [ header "Content-Type" content_type;
                            header "MIME-Version" "1.0" ];
          part_payload := EmptyString |}.
Proof.
  intros Hin. unfold mime_base_of.
  destruct (split_once_cases "/"%char (Py.chars content_type))
    as [[Hnot _] | (a & b & Heq & _ & ->)]; [done|].
  unfold MIMEBase. do 4 f_equal.
  change (String.append "/" (Py.str b)) with (Py.str ("/"%char :: b)).
  by rewrite <- str_app, <- Heq, str_chars.
Qed.

Lemma mime_base_of_no_slash content_type :
  "/"%char ∉ Py.chars content_type ->
  exists e, mime_base_of content_type = Raise e.
Proof.
  intros Hnot. unfold mime_base_of.
  destruct (split_once_cases "/"%char (Py.chars content_type))
    as [[_ ->] | (a & b & Heq & _ & _)]; [eauto|].
  exfalso. apply Hnot. rewrite Heq, elem_of_app. right. by left.
Qed.

Lemma create_attachment_readable env file_path fn ct data :
  fs env !! Path env file_path = Some (Readable data) ->
  "/"%char
    ∈ Py.chars (default (get_content_type env (AsPath (Path env file_path)))
                  ct) ->
  create_attachment env file_path fn ct
  = Ok {| part_headers :=
            [ header "Content-Type"
                (default (get_content_type env (AsPath (Path env file_path)))
                   ct);
              header "MIME-Version" "1.0";
              header "Content-Transfer-Encoding" "base64";
              {| h_name := "Content-Disposition"; h_value := "attachment";
                 h_params :=
                   [("filename"%string,
                     default (path_name env (Path env file_path)) fn)] |} ];
          part_payload := b64encode env data |}.
Proof.
  intros Hfs Hslash. unfold create_attachment. cbv zeta. rewrite Hfs.
  rewrite (mime_base_of_slash _ Hslash). reflexivity.
Qed.

Lemma create_attachment_ok_inv env file_path fn ct part :
  create_attachment env file_path fn ct = Ok part ->
  (exists data, fs env !! Path env file_path = Some (Readable data))
  /\ ("/"%char
        ∈ Py.chars (default
                      (get_content_type env (AsPath (Path env file_path)))
                      ct)).
Proof.
  unfold create_attachment. cbv zeta.
  destruct (fs env !! Path env file_path) as [[data|why]|] eqn:Hfs;
    [| |done].
  - intros H. split; [eauto|].
    destruct (decide ("/"%char
                        ∈ Py.chars
                            (default
                               (get_content_type env
                                  (AsPath (Path env file_path))) ct)))
      as [|Hnot]; [done|].
    apply mime_base_of_no_slash in Hnot as [e He].
    rewrite He in H. done.
  - unfold mbind, res_mbind, res_bind.
    destruct (mime_base_of _); done.
Qed.

Lemma built_inv env a part :
  built env a = Some part ->
  (exists data, fs env !! Path env (file_path a) = Some (Readable data))
  /\ ("/"%char ∈ Py.chars (resolved_content_type env a)).
Proof.
  unfold built, attachment_part, resolved_content_type. intros Hpart.
  destruct (create_attachment env (file_path a) (filename a)
              (content_type a)) as [p0|e] eqn:Hc; [|done].
  by apply create_attachment_ok_inv in Hc.
Qed.

(** The part of an attachment that is built, header by header. *)
Lemma built_part env a part :
  built env a = Some part ->
  exists data,
    fs env !! Path env (file_path a) = Some (Readable data)
    /\ part
       = {| part_headers :=
              [ header "Content-Type" (resolved_content_type env a);
                header "MIME-Version" "1.0";
                header "Content-Transfer-Encoding" "base64";
                {| h_name := "Content-Disposition"; h_value := "attachment";
                   h_params :=
                     [("filename"%string, resolved_filename env a)] |} ]
              ++ (if is_inline a && truthy_opt (content_id a)
                  then [ header "Content-ID"
                           (String.append "<"
                              (String.append
                                 (default EmptyString (content_id a)) ">"));
                         header "Content-Disposition" "inline" ]
                  else [ header "Content-Disposition" "attachment" ]);
            part_payload := b64encode env data |}.
Proof.
  intros Hb. destruct (built_inv _ _ _ Hb) as [[data Hfs] Hslash].
  exists data. split; [exact Hfs|].
  unfold built, attachment_part in Hb.
  unfold resolved_content_type in Hslash.
  rewrite (create_attachment_readable _ _ _ _ _ Hfs Hslash) in Hb.
  simpl in Hb. injection Hb as <-.
  unfold resolved_content_type, resolved_filename.
  by destruct (is_inline a && truthy_opt (content_id a)).
Qed.

(* ===================================================================== *)
(** ** The assembled document *)
(* ===================================================================== *)

Section Assembly.

Variable env : Env.
Variable config : EmailConfig.

Lemma set_custom_headers_spec hs msg :
  msg_headers (set_custom_headers hs msg)
  = msg_headers msg ++ map (fun kv => header kv.1 kv.2) (default [] hs)
  /\ msg_parts (set_custom_headers hs msg) = msg_parts msg.
Proof.
  destruct hs as [l|]; simpl; [|by rewrite app_nil_r].
  revert msg. induction l as [|kv l IH]; intros msg; simpl.
  - by rewrite app_nil_r.
  - destruct (IH (set_header msg kv.1 kv.2)) as [-> ->]. simpl.
    by rewrite <- app_assoc.
Qed.

Lemma attach_all_spec atts msg :
  msg_headers (attach_all env atts msg) = msg_headers msg
  /\ msg_parts (attach_all env atts msg)
     = msg_parts msg ++ omap (built env) (default [] atts).
Proof.
  destruct atts as [l|]; simpl; [|by rewrite app_nil_r].
  revert msg. induction l as [|a l IH]; intros msg; simpl.
  - by rewrite app_nil_r.
  - unfold built at 1.
    destruct (attachment_part env a) as [part|e].
    + destruct (IH (attach msg part)) as [-> ->]. simpl.
      split; [done|]. by rewrite <- app_assoc.
    + apply IH.
Qed.

(** The document, when the body part can be built: the headers of
    [MIMEMultipart()], then From, To, Subject, Cc and Reply-To when
    present and the custom headers; the body part, then the part of
    every attachment that could be built, in the order of the list.
    When the body part cannot be built, its exception is the outcome. *)
Lemma build_message_spec message to cc :
  build_message env config message to cc
  = match body_part env message with
    | Ok body =>
        Ok {| msg_headers :=
                [ header "Content-Type" "multipart/mixed";
                  header "MIME-Version" "1.0" ]
                ++ message_headers config message to cc;
              msg_parts :=
                body :: omap (built env)
                          (default [] (attachments message)) |}
    | Raise e => Raise e
    end.
Proof.
  unfold build_message, body_part, mbind, res_mbind, res_bind.
  destruct (MIMEText env (body message) _) as [bp|e]; [|done].
  f_equal.
  match goal with |- ?doc = _ =>
    transitivity {| msg_headers := msg_headers doc;
                    msg_parts := msg_parts doc |};
      [by destruct doc|]
  end.
  rewrite (proj1 (attach_all_spec _ _)), (proj2 (attach_all_spec _ _)).
  simpl.
  rewrite (proj1 (set_custom_headers_spec _ _)),
    (proj2 (set_custom_headers_spec _ _)).
  unfold set_optional, message_headers, custom_headers.
  destruct cc, (truthy_opt (reply_to message)); simpl;
    by rewrite <- ?app_assoc.
Qed.

Lemma build_message_headers message to cc doc :
  build_message env config message to cc = Ok doc ->
  msg_headers doc
  = [ header "Content-Type" "multipart/mixed";
      header "MIME-Version" "1.0" ]
    ++ message_headers config message to cc.
Proof.
  rewrite build_message_spec. destruct (body_part env message); [|done].
  by intros [= <-].
Qed.

Lemma build_message_parts message to cc doc :
  build_message env config message to cc = Ok doc ->
  exists body,
    body_part env message = Ok body
    /\ msg_parts doc
       = body :: omap (built env) (default [] (attachments message)).
Proof.
  rewrite build_message_spec.
  destruct (body_part env message) as [bp|]; [|done].
  intros [= <-]. eauto.
Qed.

Lemma build_message_raises message to cc e :
  build_message env config message to cc = Raise e
  <-> body_part env message = Raise e.
Proof.
  rewrite build_message_spec.
  destruct (body_part env message); split; congruence.
Qed.

End Assembly.

(* ===================================================================== *)
(** ** The runs of [send_email] *)
(* ===================================================================== *)

Section Send.

Variable env : Env.
Variable smtp : Transport.
Variable config : EmailConfig.

(** [send_email] step by step: validation and assembly, then [connect],
    then the serialisation and the transmission, and [close] on every
    path. *)
Lemma send_email_unfold message st :
  send_email env smtp config message st =
  match prepare env config message with
  | Raise e => finish smtp (failure (str_exn e)) st
  | Ok (to, cc, bcc, doc) =>
      match connect smtp config st with
      | (Ok true, st1) =>
          match _server st1 with
          | Some _ =>
              match as_string env doc with
              | Ok text =>
                  let c := Sendmail (smtp_user config) (to ++ cc ++ bcc)
                             text in
                  match smtp (calls st1) c with
                  | None => finish smtp (sent (to ++ cc ++ bcc))
                              (record_call c st1)
                  | Some e => finish smtp (failure (str_exn e))
                                (record_call c st1)
                  end
              | Raise e => finish smtp (failure (str_exn e)) st1
              end
          | None =>
              finish smtp
                (failure "'NoneType' object has no attribute") st1
          end
      | (Ok false, st1) =>
          finish smtp (failure "Failed to connect to SMTP server") st1
      | (Raise e, st1) => finish smtp (failure (str_exn e)) st1
      end
  end.
Proof.
  unfold send_email, prepare, validation, finish, sent, record_call.
  generalize (connect smtp config). generalize (close smtp).
  intros cl co. unfold_M.
  unfold mbind, res_mbind, res_bind.
  destruct (negb (truthy_addr (to_emails message))); simpl; [done|].
  destruct (validate_emails (to_emails message)) as [to|e]; simpl; [|done].
  destruct (validate_optional (cc_emails message)) as [cc|e]; simpl;
    [|done].
  destruct (validate_optional (bcc_emails message)) as [bcc|e]; simpl;
    [|done].
  destruct (build_message env config message to cc) as [doc|e]; simpl;
    [|done].
  destruct (co st) as [[[|]|e] [s1 cs1]]; simpl; try done.
  destruct s1; simpl; [|done].
  destruct (as_string env doc) as [text|e]; simpl; [|done].
  by destruct (smtp cs1 _).
Qed.

Lemma finish_spec r st :
  exists st',
    finish smtp r st = (Ok r, st')
    /\ _server st' = None
    /\ calls st' = calls st ++ closing (_server st).
Proof.
  unfold finish. destruct (close_spec smtp st) as (st' & -> & Hs & Hc).
  by exists st'.
Qed.

Lemma answers_app hist new1 new2 :
  answers smtp hist (new1 ++ new2)
  = answers smtp hist new1 ++ answers smtp (hist ++ new1) new2.
Proof.
  revert hist. induction new1 as [|c new1 IH]; intros hist; simpl.
  - by rewrite app_nil_r.
  - rewrite IH. by rewrite <- app_assoc.
Qed.

Lemma not_raised_answers hist new :
  Forall (fun a => a.2 = None) (answers smtp hist new) ->
  existsb raised (answers smtp hist new) = false.
Proof.
  induction 1 as [|a l Ha _ IH]; simpl; [done|].
  rewrite IH. unfold raised. rewrite Ha. by rewrite andb_false_r.
Qed.

Lemma accepts_answers hist new :
  accepts smtp hist ->
  Forall (fun c => is_quit c = false) new ->
  Forall (fun a => a.2 = None) (answers smtp hist new).
Proof.
  intros Hacc Hnew. revert hist Hacc.
  induction Hnew as [|c new Hc _ IH]; intros hist Hacc; simpl.
  - constructor.
  - constructor.
    + simpl. specialize (Hacc [] c Hc). by rewrite app_nil_r in Hacc.
    + apply IH. intros new' c' Hc'. rewrite <- app_assoc. by apply Hacc.
Qed.

Lemma connect_call_not_quit new :
  Forall (fun c => is_connect_call c = true) new ->
  Forall (fun c => is_quit c = false) new.
Proof. intros H. eapply Forall_impl; [exact H|]. by intros []. Qed.

Lemma until_raise_answers hist seq :
  (until_raise smtp hist seq).2 = true ->
  Forall (fun a => a.2 = None) (answers smtp hist seq).
Proof.
  revert hist. induction seq as [|c seq IH]; intros hist; simpl.
  - constructor.
  - destruct (smtp hist c) eqn:Ans; [done|].
    specialize (IH (hist ++ [c])).
    destruct (until_raise smtp (hist ++ [c]) seq) as [made ok].
    simpl in *. intros Hok. constructor; [done | by apply IH].
Qed.

Lemma accepts_until_raise hist seq :
  accepts smtp hist ->
  Forall (fun c => is_quit c = false) seq ->
  until_raise smtp hist seq = (seq, true).
Proof.
  intros Hacc Hseq. revert hist Hacc.
  induction Hseq as [|c seq Hc _ IH]; intros hist Hacc; simpl; [done|].
  pose proof (Hacc [] c Hc) as Hans. rewrite app_nil_r in Hans.
  rewrite Hans. rewrite IH; [done|].
  intros new c' Hc'. rewrite <- app_assoc. by apply Hacc.
Qed.

Lemma connect_sequence_calls :
  Forall (fun c => is_connect_call c = true) (connect_sequence config).
Proof.
  unfold connect_sequence, open_call.
  destruct (use_ssl config), (use_tls config); repeat constructor.
Qed.

(** The run of [send_email], call by call: the preparation (validation
    and assembly) fails, or the connection fails, or the document cannot
    be serialised, or it is handed to the transport. *)
Lemma send_email_run message st :
  exists r st',
    send_email env smtp config message st = (Ok r, st')
    /\ _server st' = None
    /\ match prepare env config message with
       | Raise e =>
           r = failure (str_exn e)
           /\ calls st' = calls st ++ closing (_server st)
       | Ok (to, cc, bcc, doc) =>
           if (until_raise smtp (calls st) (connect_sequence config)).2
           then
             match as_string env doc with
             | Raise e =>
                 r = failure (str_exn e)
                 /\ calls st'
                    = calls st ++ connect_sequence config ++ [Quit]
             | Ok text =>
                 r = match smtp (calls st ++ connect_sequence config)
                             (Sendmail (smtp_user config)
                                (to ++ cc ++ bcc) text) with
                     | None => sent (to ++ cc ++ bcc)
                     | Some e => failure (str_exn e)
                     end
                 /\ calls st'
                    = calls st ++ connect_sequence config
                      ++ [ Sendmail (smtp_user config) (to ++ cc ++ bcc)
                             text; Quit ]
             end
           else
             r = failure "Failed to connect to SMTP server"
             /\ calls st'
                = calls st
                  ++ (until_raise smtp (calls st)
                        (connect_sequence config)).1
                  ++ match smtp (calls st) (open_call config) with
                     | None => [Quit]
                     | Some _ => closing (_server st)
                     end
       end.
Proof.
  rewrite send_email_unfold.
  destruct (prepare env config message) as [[[[to cc] bcc] doc]|e].
  2:{ destruct (finish_spec (failure (str_exn e)) st)
        as (st' & -> & Hs & Hc).
      by eexists _, st'. }
  destruct (connect_until_raise smtp config st) as (st1 & -> & Hc1 & Hs1).
  destruct (until_raise_head smtp (calls st) (open_call config)
              ((if negb (use_ssl config) && use_tls config
                then [StartTLS] else [])
               ++ [Login (smtp_user config) (smtp_pass config)]))
    as (made & _ & Hopen).
  fold (connect_sequence config) in Hopen.
  destruct (until_raise smtp (calls st) (connect_sequence config)).2 eqn:Hok.
  - rewrite (Hopen eq_refl) in Hs1. rewrite Hs1. cbv beta iota zeta.
    rewrite (until_raise_all smtp (calls st) (connect_sequence config) Hok)
      in Hc1.
    rewrite Hc1.
    destruct (as_string env doc) as [text|e].
    + set (c := Sendmail _ _ _).
      destruct (smtp (calls st ++ connect_sequence config) c) as [e|].
      * destruct (finish_spec (failure (str_exn e)) (record_call c st1))
          as (st' & -> & Hs & Hc).
        eexists _, st'. split; [done|]. split; [done|]. split; [done|].
        unfold record_call in Hc. cbn [calls _server] in Hc.
        rewrite Hs1, Hc1 in Hc. rewrite Hc. cbn [closing].
        by rewrite <- !app_assoc.
      * destruct (finish_spec (sent (to ++ cc ++ bcc)) (record_call c st1))
          as (st' & -> & Hs & Hc).
        eexists _, st'. split; [done|]. split; [done|]. split; [done|].
        unfold record_call in Hc. cbn [calls _server] in Hc.
        rewrite Hs1, Hc1 in Hc. rewrite Hc. cbn [closing].
        by rewrite <- !app_assoc.
    + destruct (finish_spec (failure (str_exn e)) st1)
        as (st' & -> & Hs & Hc).
      eexists _, st'. split; [done|]. split; [done|]. split; [done|].
      rewrite Hc, Hs1, Hc1. cbn [closing]. by rewrite <- !app_assoc.
  - destruct (finish_spec (failure "Failed to connect to SMTP server") st1)
      as (st' & -> & Hs & Hc).
    eexists _, st'. split; [done|]. split; [done|]. split; [done|].
    rewrite Hc, Hc1, Hs1, <- app_assoc.
    by destruct (smtp (calls st) (open_call config)).
Qed.

Lemma prepare_validation_raises message e :
  validation message = Raise e -> prepare env config message = Raise e.
Proof. unfold prepare. by intros ->. Qed.

Lemma prepare_ok message :
  valid_message message = true ->
  prepare env config message
  = match document env config message with
    | Ok doc =>
        Ok (addresses (to_emails message),
            addresses_opt (cc_emails message),
            addresses_opt (bcc_emails message), doc)
    | Raise e => Raise e
    end.
Proof.
  intros Hvalid. unfold prepare, document.
  rewrite (valid_message_validation _ Hvalid). simpl.
  by destruct (build_message env config message _ _).
Qed.

Lemma prepare_ok_inv message v doc :
  prepare env config message = Ok (v, doc) ->
  valid_message message = true
  /\ v = (addresses (to_emails message),
          addresses_opt (cc_emails message),
          addresses_opt (bcc_emails message))
  /\ document env config message = Ok doc.
Proof.
  unfold prepare, mbind, res_mbind, res_bind.
  destruct (validation message) as [v'|] eqn:Hv; [|done].
  pose proof (validation_ok_valid _ _ Hv) as Hvalid.
  rewrite (valid_message_validation _ Hvalid) in Hv.
  injection Hv as <-. simpl. unfold document.
  destruct (build_message env config message _ _) as [d|]; [|done].
  by intros [= <- <-].
Qed.

Lemma prepare_invalid message :
  valid_message message = false ->
  exists e, validation message = Raise e
            /\ prepare env config message = Raise e.
Proof.
  intros Hinvalid. destruct (validation message) as [v|e] eqn:Hv.
  - apply validation_ok_valid in Hv. congruence.
  - exists e. split; [done|]. by apply prepare_validation_raises.
Qed.

End Send.

(* ===================================================================== *)
(** ** The claims on [connect], [close] and the exits of [send_email] *)
(* ===================================================================== *)

Lemma closing_not_raised smtp hist server :
  existsb raised (answers smtp hist (closing server)) = false.
Proof. by destruct server. Qed.

Lemma document_raises env config message e :
  document env config message = Raise e <-> body_part env message = Raise e.
Proof. apply build_message_raises. Qed.

(** C2: [send_email] returns a result and never raises, for every
    message, configuration, transport, library behaviour and mailer
    state.  A result that is not a success carries an error message.
    Whatever raises in the send path ends in the failure with its text:
    the validation; the assembly, when [MIMEText] cannot build the body
    part; the serialisation of the document by [as_string()] once the
    connection is made; and whenever a call on the transport other than
    [quit] raised during the send (connect or transmit), the result is a
    failure. *)
Theorem send_email_never_raises env smtp config message st :
  exists r st' new,
    send_email env smtp config message st = (Ok r, st')
    /\ calls st' = calls st ++ new
    /\ (success r = false -> exists msg, error_message r = Some msg)
    /\ (forall e, validation message = Raise e -> r = failure (str_exn e))
    /\ (forall e,
          valid_message message = true ->
          body_part env message = Raise e ->
          r = failure (str_exn e))
    /\ (forall doc e,
          valid_message message = true ->
          document env config message = Ok doc ->
          (until_raise smtp (calls st) (connect_sequence config)).2 = true ->
          as_string env doc = Raise e ->
          r = failure (str_exn e))
    /\ (existsb raised (answers smtp (calls st) new) = true ->
        success r = false).
Proof.
  destruct (send_email_run env smtp config message st)
    as (r & st' & Hrun & _ & Hcase).
  assert (forall hist seq rc text,
             (until_raise smtp hist seq).2 = true ->
             smtp (hist ++ seq) (Sendmail (smtp_user config) rc text)
             = None ->
             existsb raised
               (answers smtp hist
                  (seq ++ [Sendmail (smtp_user config) rc text; Quit]))
             = false) as Hquiet.
  { intros hist seq rc text Hok Ans. rewrite answers_app, existsb_app.
    rewrite not_raised_answers by by apply until_raise_answers.
    simpl. unfold raised at 1. simpl. by rewrite Ans. }
  destruct (valid_message message) eqn:Hvalid.
  - rewrite (prepare_ok env config message Hvalid) in Hcase.
    pose proof (valid_message_validation _ Hvalid) as Hv.
    destruct (document env config message) as [doc|e] eqn:Hdoc.
    + assert (forall e', body_part env message = Raise e' -> False) as Hbody.
      { intros e' He'.
        apply (proj2 (document_raises env config message e')) in He'.
        congruence. }
      destruct (until_raise smtp (calls st) (connect_sequence config)).2
        eqn:Hok;
        [destruct (as_string env doc) as [text|e] eqn:Hser|];
        destruct Hcase as [Hr Hc];
        (eexists r, st', _; split; [exact Hrun|]; split; [exact Hc|]).
      * destruct (smtp (calls st ++ connect_sequence config) _)
          as [e|] eqn:Ans; subst r;
          repeat split; try done; try congruence;
          try (intros Hraised; by rewrite Hquiet in Hraised);
          try (simpl; by eauto);
          try (intros e' _ He'; exfalso; eauto);
          try (intros d e' _ [= <-]; congruence).
      * subst r.
        repeat split; try done; simpl; eauto; try congruence;
          try (intros e' _ He'; exfalso; eauto);
          try (intros d e' _ [= <-]; congruence).
      * subst r.
        repeat split; try done; simpl; eauto; try congruence;
          try (intros e' _ He'; exfalso; eauto).
    + destruct Hcase as [-> Hc].
      eexists _, st', _. split; [exact Hrun|]. split; [exact Hc|].
      repeat split; try done; try congruence;
        try (by rewrite closing_not_raised);
        try (simpl; by eauto).
      intros e' _ He'.
      apply (proj2 (document_raises env config message e')) in He'.
      congruence.
  - destruct (prepare_invalid env config message Hvalid) as (e & He & Hp).
    rewrite Hp in Hcase. destruct Hcase as [-> Hc].
    eexists _, st', _. split; [exact Hrun|]. split; [exact Hc|].
    repeat split; try done; try congruence;
      try (by rewrite closing_not_raised);
      try (simpl; by eauto).
Qed.

(** Runs that fail: the server cannot be reached; the server refuses
    the recipients; the body cannot be encoded (no call is made); the
    document cannot be serialised (the connection is made and closed,
    nothing is transmitted). *)
Lemma send_email_failing_runs :
  send_email demo_env unreachable demo_config
    (plain_message (Single "ann@example.org")) init_state
  = (Ok (failure "Failed to connect to SMTP server"),
     {| _server := None;
        calls := [OpenPlain "smtp.example.com" 587 30] |})
  /\ (exists text,
        send_email demo_env rejecting_sendmail demo_config
          (plain_message (Single "ann@example.org")) init_state
        = (Ok (failure "recipients refused"),
           {| _server := None;
              calls := [ OpenPlain "smtp.example.com" 587 30; StartTLS;
                         Login "me@example.com" "secret";
                         Sendmail "me@example.com"
                           ["ann@example.org"%string] text;
                         Quit ] |}))
  /\ send_email unencodable_env accepting demo_config
       (plain_message (Single "ann@example.org")) init_state
     = (Ok (failure "surrogates not allowed"),
        {| _server := None; calls := [] |})
  /\ send_email demo_env accepting demo_config embedded_header_message
       init_state
     = (Ok (failure "header value appears to contain an embedded header"),
        {| _server := None;
           calls := [ OpenPlain "smtp.example.com" 587 30; StartTLS;
                      Login "me@example.com" "secret"; Quit ] |}).
Proof.
  split; [reflexivity|]. split; [eexists; reflexivity|].
  split; reflexivity.
Qed.


(** C4: a message whose [to_emails] is empty (the empty string or the
    empty list) gets the failure result of the validation error, and no
    call of [connect] reaches the transport: on a mailer without open
    connection no call at all is made, and otherwise the only call is
    the [quit] of [close]. *)
Theorem send_email_no_recipient env smtp config message st :
  truthy_addr (to_emails message) = false ->
  exists st' new,
    send_email env smtp config message st
    = (Ok (failure "No recipient email addresses provided"), st')
    /\ calls st' = calls st ++ new
    /\ Forall (fun c => is_connect_call c = false) new
    /\ (_server st = None -> new = []).
Proof.
  intros Hto.
  destruct (send_email_run env smtp config message st)
    as (r & st' & Hrun & _ & Hcase).
  assert (prepare env config message
          = Raise (ValueError "No recipient email addresses provided"))
    as Hp.
  { apply prepare_validation_raises. unfold validation. by rewrite Hto. }
  rewrite Hp in Hcase. destruct Hcase as [-> Hc].
  exists st', (closing (_server st)).
  split; [done|]. split; [done|]. split.
  - destruct (_server st); repeat constructor.
  - by intros ->.
Qed.

Lemma send_email_no_recipient_witness :
  exists st' new,
    send_email demo_env accepting demo_config no_recipient_message
      init_state
    = (Ok (failure "No recipient email addresses provided"), st')
    /\ calls st' = calls init_state ++ new
    /\ Forall (fun c => is_connect_call c = false) new
    /\ (_server init_state = None -> new = []).
Proof. apply send_email_no_recipient. reflexivity. Defined.

(** C5 as amended: [connect] returns a boolean and never raises; it
    returns [True] exactly when every call it made on the transport
    returned.  It never clears the handle: when opening the socket
    raises, the handle keeps the value it had (it is [None] on a mailer
    whose handle was [None]); when the socket was opened and the upgrade
    or the authentication raises, the handle holds the opened
    connection. *)
Theorem connect_returns_bool smtp config st :
  exists b st' new,
    connect smtp config st = (Ok b, st')
    /\ calls st' = calls st ++ new
    /\ (b = true <-> Forall (fun a => a.2 = None)
                       (answers smtp (calls st) new))
    /\ _server st'
       = match smtp (calls st) (open_call config) with
         | None => Some (server_kind config)
         | Some _ => _server st
         end.
Proof.
  destruct (connect_spec smtp config st)
    as (b & st' & new & Hrun & Hc & _ & _ & Hb & Hs).
  by exists b, st', new.
Qed.

(** C5, the claim as stated fails: when the authentication is rejected,
    [connect] returns [False] and the handle is the opened connection,
    not [None]. *)
Lemma connect_failed_login_keeps_handle :
  connect rejecting_login demo_config init_state
  = (Ok false,
     {| _server := Some SMTP;
        calls := [ OpenPlain "smtp.example.com" 587 30; StartTLS;
                   Login "me@example.com" "secret" ] |}).
Proof. reflexivity. Qed.

(* ===================================================================== *)
(** ** Addresses and the text of headers *)
(* ===================================================================== *)

Section Occurrences.

Lemma chars_append a b :
  Py.chars (String.append a b) = Py.chars a ++ Py.chars b.
Proof. induction a as [|c a IH]; simpl; [done|]. by rewrite IH. Qed.

Lemma occurs_elem needle hay c :
  Py.occurs needle hay -> c ∈ needle -> c ∈ hay.
Proof.
  intros (pre & post & ->) Hc. rewrite !elem_of_app. auto.
Qed.

Lemma occurs_nil_inv needle : Py.occurs needle [] -> needle = [].
Proof.
  intros (pre & post & H). symmetry in H.
  apply app_eq_nil in H as [_ H]. by apply app_eq_nil in H as [-> _].
Qed.

(** A needle without the character [c] that occurs in [A ++ c :: B]
    occurs in [A] or in [B]. *)
Lemma occurs_sep needle A c B :
  c ∉ needle -> Py.occurs needle (A ++ c :: B) ->
  Py.occurs needle A \/ Py.occurs needle B.
Proof.
  intros Hc (pre & post & Heq). symmetry in Heq.
  apply app_eq_app in Heq as [l [[-> Heq] | [-> Heq]]].
  - destruct l as [|x l]; simpl in Heq.
    + destruct needle as [|x needle]; simpl in Heq.
      * left. exists A, []. by rewrite app_nil_r.
      * injection Heq as -> _. exfalso. apply Hc. by left.
    + injection Heq as -> ->. right. by exists l, post.
  - apply app_eq_app in Heq as [l' [[-> Heq] | [-> Heq]]].
    + destruct l' as [|x l']; simpl in Heq.
      * rewrite app_nil_r. left. exists pre, []. by rewrite app_nil_r.
      * injection Heq as -> _. exfalso. apply Hc.
        rewrite elem_of_app. right. by left.
    + left. by exists pre, l'.
Qed.

(** A non-empty needle without comma and space that occurs in
    [", ".join(items)] occurs in one of the items. *)
Lemma occurs_join needle items :
  needle <> [] -> ","%char ∉ needle -> " "%char ∉ needle ->
  Py.occurs needle (Py.chars (Py.join ", " items)) ->
  exists a, a ∈ items /\ Py.occurs needle (Py.chars a).
Proof.
  intros Hne Hcomma Hspace.
  induction items as [|x [|y rest] IH]; intros Hocc.
  - apply occurs_nil_inv in Hocc. done.
  - exists x. split; [by left | done].
  - change (Py.join ", " (x :: y :: rest))
      with (String.append x (String.append ", " (Py.join ", " (y :: rest))))
      in Hocc.
    rewrite !chars_append in Hocc. simpl in Hocc.
    apply occurs_sep in Hocc as [Hocc | Hocc]; [| |done].
    + exists x. split; [by left | done].
    + apply (occurs_sep needle [] " "%char) in Hocc as [Hocc | Hocc];
        [| |done].
      * apply occurs_nil_inv in Hocc. done.
      * destruct (IH Hocc) as (a & Ha & Hin).
        exists a. split; [by right | done].
Qed.

Lemma class_address_char c :
  (local_char c = true \/ domain_char c = true \/ is_letter c = true) ->
  address_char c = true.
Proof.
  unfold address_char, local_char, domain_char.
  rewrite !orb_true_iff. tauto.
Qed.

Lemma address_form_chars s :
  address_form s -> Forall (fun c => address_char c = true) s.
Proof.
  intros (l & d & t & -> & _ & Hl & _ & Hd & _ & Ht).
  rewrite Forall_app, Forall_cons, Forall_app, Forall_cons.
  repeat split; try reflexivity.
  - eapply Forall_impl; [exact Hl|]. intros c Hc.
    apply class_address_char. auto.
  - eapply Forall_impl; [exact Hd|]. intros c Hc.
    apply class_address_char. auto.
  - eapply Forall_impl; [exact Ht|]. intros c Hc.
    apply class_address_char. auto.
Qed.

(** An accepted address has an [@], and neither comma nor space. *)
Lemma valid_address_chars email :
  validate_email email = true ->
  ("@"%char ∈ Py.chars email)
  /\ (","%char ∉ Py.chars email) /\ (" "%char ∉ Py.chars email).
Proof.
  intros H. apply validate_email_spec in H.
  assert (Forall (fun c => address_char c = true) (Py.chars email)
          /\ ("@"%char ∈ Py.chars email)) as [Hall Hat].
  { destruct H as [H | (s' & -> & H)].
    - split; [by apply address_form_chars|].
      destruct H as (l & d & t & -> & _). rewrite elem_of_app. right.
      by left.
    - split.
      + rewrite Forall_app. split; [by apply address_form_chars|].
        by repeat constructor.
      + destruct H as (l & d & t & -> & _). rewrite !elem_of_app.
        left. right. by left. }
  split; [done|].
  rewrite Forall_forall in Hall.
  split; intros Hin; apply Hall in Hin; vm_compute in Hin; done.
Qed.

Lemma no_at_no_address address text :
  validate_email address = true ->
  existsb (Py.is_char "@") (Py.chars text) = false ->
  ~ Py.occurs_in address text.
Proof.
  intros Hv Hno Hocc. apply valid_address_chars in Hv as [Hat _].
  eapply occurs_elem in Hocc; [|exact Hat].
  assert (existsb (Py.is_char "@") (Py.chars text) = true) as Hex.
  { apply existsb_exists. exists "@"%char. split.
    - by apply list_elem_of_In.
    - apply is_char_refl. }
  congruence.
Qed.

Lemma valid_address_class email c :
  validate_email email = true -> c ∈ Py.chars email ->
  address_char c = true.
Proof.
  intros H Hin. apply validate_email_spec in H.
  assert (Forall (fun c => address_char c = true) (Py.chars email))
    as Hall.
  { destruct H as [H | (s' & -> & H)].
    - by apply address_form_chars.
    - rewrite Forall_app. split; [by apply address_form_chars|].
      by repeat constructor. }
  rewrite Forall_forall in Hall. by apply Hall.
Qed.

(** A valid address that occurs in [<text>] occurs in [text]. *)
Lemma occurs_in_brackets address text :
  validate_email address = true ->
  Py.occurs_in address (String.append "<" (String.append text ">")) ->
  Py.occurs_in address text.
Proof.
  intros Hv Hocc. unfold Py.occurs_in in *.
  rewrite !chars_append in Hocc. simpl in Hocc.
  destruct (valid_address_chars _ Hv) as (Hat & _ & _).
  assert (Py.chars address <> []) as Hne
      by (intros E; rewrite E in Hat; by apply elem_of_nil in Hat).
  assert (forall c, address_char c = false -> c ∉ Py.chars address) as Hnot.
  { intros c Hc Hin. apply (valid_address_class _ _ Hv) in Hin.
    congruence. }
  apply (occurs_sep _ [] "<"%char) in Hocc as [Hocc | Hocc];
    [by apply occurs_nil_inv in Hocc | | by apply Hnot].
  apply occurs_sep in Hocc as [Hocc | Hocc];
    [done | by apply occurs_nil_inv in Hocc | by apply Hnot].
Qed.

End Occurrences.

(* ===================================================================== *)
(** ** The claims on a successful send *)
(* ===================================================================== *)

Section Delivery.

Variable env : Env.
Variable smtp : Transport.
Variable config : EmailConfig.

(** A valid message whose document can be built and serialised, on a
    transport that accepts every call: the connection is made, the
    serialised document is handed to the transport for all the
    recipients, the connection is closed, and the result is a success. *)
Lemma valid_message_sent message st doc text :
  valid_message message = true ->
  accepts smtp (calls st) ->
  document env config message = Ok doc ->
  as_string env doc = Ok text ->
  exists st',
    send_email env smtp config message st
    = (Ok (sent (all_recipients message)), st')
    /\ calls st'
       = calls st ++ connect_sequence config
         ++ [ Sendmail (smtp_user config) (all_recipients message) text;
              Quit ].
Proof.
  intros Hvalid Hacc Hdoc Hser.
  destruct (send_email_run env smtp config message st)
    as (r & st' & Hrun & _ & Hcase).
  rewrite (prepare_ok env config message Hvalid), Hdoc in Hcase.
  rewrite (accepts_until_raise smtp (calls st) (connect_sequence config))
    in Hcase; [|done|].
  2:{ apply connect_call_not_quit, connect_sequence_calls. }
  cbn [snd] in Hcase. rewrite Hser in Hcase.
  rewrite Hacc in Hcase by done. destruct Hcase as [-> Hc].
  by exists st'.
Qed.

(** A header of the document, or of one of its parts, that mentions a
    valid address takes it from a field of the message that is not
    [bcc_emails]. *)
Lemma header_mentions_source message doc address h :
  validate_email address = true ->
  document env config message = Ok doc ->
  h ∈ document_headers doc ->
  header_mentions address h ->
  mentioned_elsewhere env config message address.
Proof.
  intros Hv Hdoc Hh (text & Htext & Hocc).
  assert (forall text,
             existsb (Py.is_char "@") (Py.chars text) = false ->
             ~ Py.occurs_in address text) as Hno
      by (intros t; by apply no_at_no_address).
  destruct (valid_address_chars _ Hv) as (Hat & Hcomma & Hspace).
  assert (Py.chars address <> []) as Hne
      by (intros E; rewrite E in Hat; by apply elem_of_nil in Hat).
  assert (forall items,
             Py.occurs_in address (Py.join ", " items) ->
             exists a, a ∈ items /\ Py.occurs_in address a) as Hjoin
      by (intros items; by apply occurs_join).
  unfold document in Hdoc.
  pose proof (build_message_headers _ _ _ _ _ _ Hdoc) as Hheaders.
  destruct (build_message_parts _ _ _ _ _ _ Hdoc) as (bp & Hbody & Hparts).
  unfold document_headers in Hh. rewrite Hheaders, Hparts in Hh.
  cbn [flat_map] in Hh.
  unfold mentioned_elsewhere, header_texts in *.
  rewrite !elem_of_app in Hh.
  destruct Hh as [[Hh | Hh] | [Hh | Hh]].
  - (* the headers of MIMEMultipart() *)
    rewrite !elem_of_cons, elem_of_nil in Hh.
    destruct Hh as [-> | [-> | []]]; simpl in Htext;
      rewrite !elem_of_cons, elem_of_nil in Htext;
      destruct Htext as [-> | [-> | []]]; by apply Hno in Hocc.
  - (* the headers written from the message *)
    unfold message_headers in Hh.
    rewrite !elem_of_app, !elem_of_cons in Hh.
    destruct Hh as [[-> | [-> | [-> | Hh]]] | [Hh | [Hh | Hh]]].
    + simpl in Htext. rewrite !elem_of_cons, elem_of_nil in Htext.
      destruct Htext as [-> | [-> | []]]; [by apply Hno in Hocc | auto].
    + simpl in Htext. rewrite !elem_of_cons, elem_of_nil in Htext.
      destruct Htext as [-> | [-> | []]]; [by apply Hno in Hocc |].
      right. left. by apply Hjoin.
    + simpl in Htext. rewrite !elem_of_cons, elem_of_nil in Htext.
      destruct Htext as [-> | [-> | []]]; [by apply Hno in Hocc | auto].
    + by apply elem_of_nil in Hh.
    + destruct (addresses_opt (cc_emails message)) eqn:Ecc;
        [by apply elem_of_nil in Hh|].
      apply list_elem_of_singleton in Hh as ->.
      simpl in Htext. rewrite !elem_of_cons, elem_of_nil in Htext.
      destruct Htext as [-> | [-> | []]]; [by apply Hno in Hocc |].
      right. right. right. left. by apply Hjoin.
    + destruct (truthy_opt (reply_to message));
        [|by apply elem_of_nil in Hh].
      apply list_elem_of_singleton in Hh as ->.
      simpl in Htext. rewrite !elem_of_cons, elem_of_nil in Htext.
      destruct Htext as [-> | [-> | []]]; [by apply Hno in Hocc | auto 10].
    + unfold custom_headers in Hh.
      apply list_elem_of_fmap in Hh as (kv & -> & Hkv).
      simpl in Htext. rewrite !elem_of_cons, elem_of_nil in Htext.
      do 5 right. left. exists kv. split; [done|].
      destruct Htext as [-> | [-> | []]]; auto.
  - (* the headers of the body part *)
    unfold body_part, MIMEText, mbind, res_mbind, res_bind in Hbody.
    destruct (encode_text env (body message)) as [[enc payload]|];
      [|done].
    injection Hbody as <-. simpl in Hh.
    rewrite !elem_of_cons, elem_of_nil in Hh.
    destruct Hh as [-> | [-> | [-> | []]]]; simpl in Htext;
      rewrite !elem_of_cons, elem_of_nil in Htext;
      repeat (destruct Htext as [-> | Htext]); try done;
      exfalso; refine (Hno _ _ Hocc);
      by destruct (is_html message), enc.
  - (* the headers of the attachment parts *)
    apply list_elem_of_In, in_flat_map in Hh as (part & Hpart & Hh).
    apply list_elem_of_In, list_elem_of_omap in Hpart
      as (a & Ha & Hbuilt).
    apply list_elem_of_In in Hh.
    destruct (built_part _ _ _ Hbuilt) as (data & _ & ->).
    do 6 right. exists a. split; [done|].
    cbn [part_headers] in Hh.
    rewrite elem_of_app, !elem_of_cons, elem_of_nil in Hh.
    destruct Hh as [[-> | [-> | [-> | [-> | []]]]] | Hh].
    + simpl in Htext. rewrite !elem_of_cons, elem_of_nil in Htext.
      destruct Htext as [-> | [-> | []]]; [by apply Hno in Hocc | auto].
    + simpl in Htext. rewrite !elem_of_cons, elem_of_nil in Htext.
      destruct Htext as [-> | [-> | []]]; by apply Hno in Hocc.
    + simpl in Htext. rewrite !elem_of_cons, elem_of_nil in Htext.
      destruct Htext as [-> | [-> | []]]; by apply Hno in Hocc.
    + simpl in Htext. rewrite !elem_of_cons, elem_of_nil in Htext.
      destruct Htext as [-> | [-> | [-> | [-> | []]]]];
        try (by apply Hno in Hocc); auto.
    + destruct (is_inline a && truthy_opt (content_id a)).
      * rewrite !elem_of_cons, elem_of_nil in Hh.
        destruct Hh as [-> | [-> | []]]; simpl in Htext;
          rewrite !elem_of_cons, elem_of_nil in Htext;
          destruct Htext as [-> | [-> | []]];
          try (by apply Hno in Hocc).
        right. right. by apply occurs_in_brackets.
      * apply list_elem_of_singleton in Hh as ->. simpl in Htext.
        rewrite !elem_of_cons, elem_of_nil in Htext.
        destruct Htext as [-> | [-> | []]]; by apply Hno in Hocc.
Qed.

End Delivery.

(** C1 as amended: a valid message whose document the [email] library
    can build and serialise, sent through a transport that accepts every
    call, gets a success result whose recipients are the [to], [cc] and
    [bcc] addresses (an address is a recipient exactly when it is in one
    of the three lists); the calls of the send are those of [connect],
    one [sendmail] of the serialised document to these recipients, and
    [quit].  No header is written from [bcc_emails]: the headers of the
    document are those of [MIMEMultipart()] followed by From, To,
    Subject, Cc, Reply-To and the custom headers, and a header of the
    document or of one of its parts (name, value or parameter) mentions a
    [bcc] address only when that address occurs in the sender, a [to] or
    [cc] address, the subject, the reply-to, a custom header, or the
    content type, file name or content id of an attachment. *)
Theorem send_email_recipients_and_headers
        env smtp config message st doc text :
  valid_message message = true ->
  accepts smtp (calls st) ->
  document env config message = Ok doc ->
  as_string env doc = Ok text ->
  exists st',
    send_email env smtp config message st
    = (Ok (sent (all_recipients message)), st')
    /\ calls st'
       = calls st ++ connect_sequence config
         ++ [ Sendmail (smtp_user config) (all_recipients message) text;
              Quit ]
    /\ (forall a,
          a ∈ all_recipients message
          <-> a ∈ addresses (to_emails message)
              \/ a ∈ addresses_opt (cc_emails message)
              \/ a ∈ addresses_opt (bcc_emails message))
    /\ msg_headers doc
       = [ header "Content-Type" "multipart/mixed";
           header "MIME-Version" "1.0" ]
         ++ message_headers config message
              (addresses (to_emails message))
              (addresses_opt (cc_emails message))
    /\ (forall b h,
          b ∈ addresses_opt (bcc_emails message) ->
          h ∈ document_headers doc ->
          header_mentions b h ->
          mentioned_elsewhere env config message b).
Proof.
  intros Hvalid Hacc Hdoc Hser.
  destruct (valid_message_sent env smtp config message st doc text
              Hvalid Hacc Hdoc Hser) as (st' & Hrun & Hc).
  exists st'. split; [done|]. split; [done|]. split; [|split].
  - intros a. unfold all_recipients. by rewrite !elem_of_app.
  - by apply (build_message_headers env config message _ _ doc).
  - intros b h Hb. apply (header_mentions_source env config message doc);
      [|done].
    apply andb_true_iff in Hvalid as [_ Hbcc].
    rewrite forallb_forall in Hbcc. apply Hbcc.
    by apply list_elem_of_In.
Qed.

Lemma send_email_recipients_and_headers_witness :
  exists text st',
    send_email demo_env accepting demo_config self_bcc_message init_state
    = (Ok (sent ["ann@example.org"; "me@example.com"]%string), st')
    /\ calls st'
       = connect_sequence demo_config
         ++ [ Sendmail "me@example.com"
                ["ann@example.org"; "me@example.com"]%string text;
              Quit ].
Proof.
  edestruct (send_email_recipients_and_headers demo_env accepting
               demo_config self_bcc_message init_state)
    as (st' & Hrun & Hc & _);
    [ reflexivity | intros new c _; reflexivity
    | reflexivity | reflexivity | ].
  eexists _, st'. split; [exact Hrun | exact Hc].
Defined.

(** C1, the claim as stated fails: a sender who puts their own address
    in [bcc] gets a success, and the From header of the document whose
    serialisation is handed to the transport is that [bcc] address. *)
Lemma bcc_address_in_from_header :
  exists doc text st',
    document demo_env demo_config self_bcc_message = Ok doc
    /\ as_string demo_env doc = Ok text
    /\ send_email demo_env accepting demo_config self_bcc_message init_state
       = (Ok (sent ["ann@example.org"; "me@example.com"]%string), st')
    /\ (Sendmail "me@example.com"
          ["ann@example.org"; "me@example.com"]%string text ∈ calls st')
    /\ ("me@example.com"%string
          ∈ addresses_opt (bcc_emails self_bcc_message))
    /\ (header "From" "me@example.com" ∈ msg_headers doc)
    /\ header_mentions "me@example.com" (header "From" "me@example.com").
Proof.
  eexists _, _, _. split; [reflexivity|]. split; [reflexivity|].
  split; [reflexivity|]. simpl. repeat split.
  - do 3 right. left.
  - left.
  - do 2 right. left.
  - exists "me@example.com"%string. split; [right; left|].
    by exists [], [].
Qed.

Lemma omap_built_filter env l :
  omap (built env)
    (List.filter
       (fun a => match built env a with Some _ => true | None => false end)
       l)
  = omap (built env) l.
Proof.
  set (f := fun a => match built env a with Some _ => true | None => false end).
  induction l as [|a l IH]; [done|].
  change (List.filter f (a :: l))
    with (if f a then a :: List.filter f l else List.filter f l).
  change (omap (built env) (a :: l))
    with (match built env a with
          | Some part => part :: omap (built env) l
          | None => omap (built env) l
          end).
  unfold f at 1. destruct (built env a) as [part|] eqn:Hb; [|exact IH].
  change (omap (built env) (a :: List.filter f l))
    with (match built env a with
          | Some part => part :: omap (built env) (List.filter f l)
          | None => omap (built env) (List.filter f l)
          end).
  by rewrite Hb, IH.
Qed.

Lemma prepare_buildable env config message :
  prepare env config (with_attachments (Some (buildable env message)) message)
  = prepare env config message.
Proof.
  unfold prepare, mbind, res_mbind, res_bind.
  change (validation (with_attachments (Some (buildable env message)) message))
    with (validation message).
  destruct (validation message) as [v|]; [|done].
  rewrite !build_message_spec.
  change (body_part env
            (with_attachments (Some (buildable env message)) message))
    with (body_part env message).
  destruct (body_part env message); [|done].
  unfold buildable. simpl. by rewrite omap_built_filter.
Qed.

(** C8: an attachment that cannot be built is left out and the send goes
    on.  For every transport and state, the send of a message is the
    send of the same message without its unbuildable attachments: same
    calls, same result.  When the document is built, its parts are the
    body part followed by the part of every attachment that could be
    built, in order, so every other attachment is included; an
    attachment whose path does not exist cannot be built.  And the send
    succeeds, whatever the attachments are, when the message is valid,
    the transport accepts every call and the document can be
    serialised. *)
Theorem send_email_skips_unbuildable env smtp config message st :
  send_email env smtp config
    (with_attachments (Some (buildable env message)) message) st
  = send_email env smtp config message st
  /\ (forall a,
        fs env !! Path env (file_path a) = None -> built env a = None)
  /\ (forall doc,
        document env config message = Ok doc ->
        exists body,
          body_part env message = Ok body
          /\ msg_parts doc
             = body :: omap (built env) (default [] (attachments message))
          /\ forall a part,
               a ∈ default [] (attachments message) ->
               built env a = Some part ->
               part ∈ msg_parts doc)
  /\ (forall doc text,
        valid_message message = true ->
        accepts smtp (calls st) ->
        document env config message = Ok doc ->
        as_string env doc = Ok text ->
        exists st',
          send_email env smtp config message st
          = (Ok (sent (all_recipients message)), st')
          /\ calls st'
             = calls st ++ connect_sequence config
               ++ [ Sendmail (smtp_user config) (all_recipients message)
                      text; Quit ]).
Proof.
  split; [|split; [|split]].
  - by rewrite !send_email_unfold, prepare_buildable.
  - intros a Hnone. unfold built, attachment_part, create_attachment.
    cbv zeta. by rewrite Hnone.
  - intros doc Hdoc.
    destruct (build_message_parts env config _ _ _ _ Hdoc)
      as (bp & Hbody & Hparts).
    exists bp. split; [done|]. split; [done|].
    intros a part Ha Hb. rewrite Hparts. right.
    apply list_elem_of_omap. by exists a.
  - intros doc text Hvalid Hacc Hdoc Hser.
    by apply (valid_message_sent env smtp config message st doc text).
Qed.

Lemma send_email_skips_unbuildable_witness :
  exists doc text st',
    document demo_env demo_config report_message = Ok doc
    /\ length (msg_parts doc) = 2%nat
    /\ send_email demo_env accepting demo_config report_message init_state
       = (Ok (sent ["ann@example.org"%string]), st')
    /\ calls st'
       = connect_sequence demo_config
         ++ [ Sendmail "me@example.com" ["ann@example.org"%string] text;
              Quit ].
Proof.
  destruct (send_email_skips_unbuildable demo_env accepting demo_config
              report_message init_state) as (_ & _ & Hparts & Hsend).
  edestruct Hsend as (st' & Hrun & Hc);
    [ reflexivity | intros new c _; reflexivity
    | reflexivity | reflexivity | ].
  eexists _, _, st'. split; [reflexivity|]. split; [reflexivity|].
  split; [exact Hrun | exact Hc].
Defined.

(** Only the building of an attachment is guarded.  An attachment that
    is built is in the document whatever its headers hold: when its
    content id cannot be written, [as_string()] raises once the
    connection is made, and the send ends in the failure with that
    error. *)
Lemma send_email_unserialisable_attachment :
  is_Some (built demo_env
             {| file_path := AsStr "/srv/report.pdf"; filename := None;
                content_type := None;
                content_id :=
                  Some (String.append (line "logo") "Bcc: evil@x.io");
                is_inline := true |})
  /\ send_email demo_env accepting demo_config embedded_content_id_message
       init_state
     = (Ok (failure "header value appears to contain an embedded header"),
        {| _server := None;
           calls := [ OpenPlain "smtp.example.com" 587 30; StartTLS;
                      Login "me@example.com" "secret"; Quit ] |}).
Proof. split; [by eexists | reflexivity]. Qed.

(** C10: every [sendmail] call of a send has the configured
    [smtp_user] as envelope sender, and a success made one such call.
    The sender override of the message is only read for the From
    header: with another override the document differs in the value of
    that header (the third one) and nowhere else, and it is built with
    one override exactly when it is built with the other. *)
Theorem envelope_from_is_smtp_user env smtp config message st :
  (exists r st' new,
      send_email env smtp config message st = (Ok r, st')
      /\ calls st' = calls st ++ new
      /\ (forall f rc d, Sendmail f rc d ∈ new -> f = smtp_user config)
      /\ (success r = true ->
          exists rc d, Sendmail (smtp_user config) rc d ∈ new))
  /\ (forall o to cc,
        match build_message env config (with_from_email o message) to cc,
              build_message env config message to cc with
        | Ok d, Ok d0 =>
            msg_headers d !! 2%nat
            = Some (header "From" (or_else o (smtp_user config)))
            /\ delete 2%nat (msg_headers d) = delete 2%nat (msg_headers d0)
            /\ msg_parts d = msg_parts d0
        | Raise e, Raise e0 => e = e0
        | _, _ => False
        end).
Proof.
  split.
  - destruct (send_email_run env smtp config message st)
      as (r & st' & Hrun & _ & Hcase).
    assert (forall l f rc d,
               Forall (fun c => is_connect_call c = true) l ->
               Sendmail f rc d ∉ l) as Hnot.
    { intros l f rc d Hcon Hin.
      rewrite Forall_forall in Hcon. by apply Hcon in Hin. }
    assert (forall f rc d,
               Sendmail f rc d
                 ∉ (until_raise smtp (calls st) (connect_sequence config)).1)
      as Hmade.
    { intros f rc d Hin. apply until_raise_sublist in Hin.
      by apply (Hnot _ _ _ _ (connect_sequence_calls config)) in Hin. }
    assert (forall f rc d s, Sendmail f rc d ∉ closing s) as Hclose.
    { intros f rc d [s|] Hin; simpl in Hin.
      - by apply list_elem_of_singleton in Hin.
      - by apply elem_of_nil in Hin. }
    destruct (prepare env config message) as [[[[to cc] bcc] doc]|e].
    + destruct (until_raise smtp (calls st) (connect_sequence config)).2;
        [destruct (as_string env doc) as [text|e]|];
        destruct Hcase as [Hr Hc];
        (eexists r, st', _; split; [exact Hrun|]; split; [exact Hc|]).
      * split.
        -- intros f rc d [Hin | Hin]%elem_of_app.
           ++ by apply (Hnot _ _ _ _ (connect_sequence_calls config)) in Hin.
           ++ apply elem_of_cons in Hin as [Hin | Hin]; [congruence|].
              by apply list_elem_of_singleton in Hin.
        -- intros _. eexists _, _. rewrite elem_of_app. right. left.
      * subst r. split; [|done].
        intros f rc d [Hin | Hin]%elem_of_app.
        -- by apply (Hnot _ _ _ _ (connect_sequence_calls config)) in Hin.
        -- by apply list_elem_of_singleton in Hin.
      * subst r. split; [|done].
        intros f rc d [Hin | Hin]%elem_of_app; [by apply Hmade in Hin|].
        destruct (smtp (calls st) (open_call config)).
        -- by apply Hclose in Hin.
        -- by apply list_elem_of_singleton in Hin.
    + destruct Hcase as [-> Hc].
      eexists _, st', _. split; [exact Hrun|]. split; [exact Hc|].
      split; [|done]. intros f rc d Hin. by apply Hclose in Hin.
  - intros o to cc. rewrite !build_message_spec.
    change (body_part env (with_from_email o message))
      with (body_part env message).
    by destruct (body_part env message).
Qed.

(* ===================================================================== *)
(** ** The claims on [render_html_email] *)
(* ===================================================================== *)

(** C9 as amended: [render_html_email] returns the body rendered by
    [render_template] (and raises what [render_template] raises).  The
    subject is rendered by [render_string] from the subject template
    when one is given and is not the empty string; when none is given,
    or the empty one, the subject is the value of the context at
    ["subject"], and ["No Subject"] when the context has no such key. *)
Theorem render_html_email_subject j self template_name context :
  (forall e subject_template,
      render_template j self template_name context = Raise e ->
      render_html_email j self template_name context subject_template
      = Raise e)
  /\ (forall html_body t,
        render_template j self template_name context = Ok html_body ->
        t <> EmptyString ->
        render_html_email j self template_name context (Some t)
        = match render_string j t context with
          | Ok s => Ok (PStr s, html_body)
          | Raise e => Raise e
          end)
  /\ (forall html_body subject_template,
        render_template j self template_name context = Ok html_body ->
        subject_template = None \/ subject_template = Some EmptyString ->
        render_html_email j self template_name context subject_template
        = Ok (match context !! "subject"%string with
              | Some v => v
              | None => PStr "No Subject"
              end, html_body)).
Proof.
  unfold render_html_email, mbind, res_mbind, res_bind.
  split; [|split].
  - intros e st ->. reflexivity.
  - intros html_body t -> Ht.
    assert (truthy_opt (Some t) = true) as ->.
    { simpl. unfold truthy. destruct (String.eqb_spec t EmptyString); done. }
    simpl. by destruct (render_string j t context).
  - intros html_body st -> [-> | ->]; simpl;
      by destruct (context !! "subject"%string).
Qed.

(** [render_text_email] has the body of [render_html_email]. *)
Lemma render_text_email_eq j self template_name context subject_template :
  render_text_email j self template_name context subject_template
  = render_html_email j self template_name context subject_template.
Proof. reflexivity. Qed.

(** The two examples of the specification, on the stand-in engine. *)
Lemma render_html_email_examples :
  let self := new_template mini_jinja (Some "templates"%string) in
  render_html_email mini_jinja self "welcome.html" ann_context None
  = Ok (PStr "No Subject", "<p>Hello Ann,</p>"%string)
  /\ render_html_email mini_jinja self "welcome.html" ann_context
       (Some "Hi {{user_name}}"%string)
     = Ok (PStr "Hi Ann", "<p>Hello Ann,</p>"%string).
Proof. split; vm_compute; reflexivity. Qed.

(** C9, the claim as stated fails: an empty subject template is
    provided, [render_string] renders it to the empty string, and the
    subject returned is ["No Subject"]. *)
Lemma empty_subject_template_not_rendered :
  render_string mini_jinja EmptyString ann_context = Ok EmptyString
  /\ render_html_email mini_jinja
       (new_template mini_jinja (Some "templates"%string))
       "welcome.html" ann_context (Some EmptyString)
     = Ok (PStr "No Subject", "<p>Hello Ann,</p>"%string).
Proof. split; vm_compute; reflexivity. Qed.

(* ===================================================================== *)
(** ** More on attachments *)
(* ===================================================================== *)




(** X10: every part the attachment loop puts in the document carries
    two Content-Disposition headers: the one of [create_attachment]
    (attachment, with the file name: the given one, or else the [name]
    of the [Path] of the attachment) and then the one of the loop, which
    is inline only when the attachment is flagged inline and has a
    non-empty content id; an inline flag without content id gives a
    plain attachment. *)
Theorem built_part_dispositions env a part :
  built env a = Some part ->
  List.filter is_disposition (part_headers part)
  = [ {| h_name := "Content-Disposition"; h_value := "attachment";
         h_params := [("filename"%string, resolved_filename env a)] |};
      header "Content-Disposition"
        (if is_inline a && truthy_opt (content_id a)
         then "inline" else "attachment") ].
Proof.
  intros Hb. destruct (built_part _ _ _ Hb) as (data & _ & ->).
  by destruct (is_inline a && truthy_opt (content_id a)).
Qed.

Lemma built_part_dispositions_witness :
  exists part,
    built demo_env (attachment_at "/srv/report.pdf") = Some part
    /\ List.filter is_disposition (part_headers part)
       = [ {| h_name := "Content-Disposition"; h_value := "attachment";
              h_params := [("filename", "report.pdf")]%string |};
           header "Content-Disposition" "attachment" ].
Proof.
  eexists. split; [reflexivity|].
  apply (built_part_dispositions demo_env (attachment_at "/srv/report.pdf")).
  reflexivity.
Defined.

(** Paths that are not in normal form: the part built for
    ["/srv/report.pdf/"] is that of ["/srv/report.pdf"], with the file
    name ["report.pdf"]; and the error for a path that does not exist
    names the path as [Path] writes it. *)
Lemma create_attachment_normalises_path :
  create_attachment demo_env (AsStr "/srv/report.pdf/") None None
  = create_attachment demo_env (AsStr "/srv/report.pdf") None None
  /\ resolved_filename demo_env (attachment_at "/srv/report.pdf/")
     = "report.pdf"%string
  /\ create_attachment demo_env (AsStr "/srv//missing.txt") None None
     = Raise (FileNotFoundError "File not found: /srv/missing.txt").
Proof. split; [reflexivity|]. split; reflexivity. Qed.

(** A file that is there, declared with a content type without slash:
    no part is built for it. *)
Lemma content_type_without_slash_not_built :
  built demo_env
    {| file_path := AsStr "/srv/report.pdf"; filename := None;
       content_type := Some "pdf"%string; content_id := None;
       is_inline := false |}
  = None.
Proof. reflexivity. Qed.

(* ===================================================================== *)
(** ** More on [connect] and [close] *)
(* ===================================================================== *)

(** X11: [connect] makes the calls of its sequence (open the socket
    plainly or encrypted, STARTTLS when [use_tls] is set and [use_ssl]
    is not, then the login) one after the other and stops at the first
    that raises; it returns [True] exactly when none raised, and the
    calls after the one that raised are never made. *)
Theorem connect_stops_at_first_failure smtp config st :
  exists st',
    connect smtp config st
    = (Ok (until_raise smtp (calls st) (connect_sequence config)).2, st')
    /\ calls st'
       = calls st
         ++ (until_raise smtp (calls st) (connect_sequence config)).1.
Proof.
  destruct (connect_until_raise smtp config st) as (st' & Hrun & Hc & _).
  by exists st'.
Qed.

(** X12: the credentials go out only over the connection the
    configuration asks for: a login call made by [connect] carries the
    configured user and password, comes after the socket was opened,
    and, when [use_tls] is set without [use_ssl], after STARTTLS
    returned; with [use_ssl], STARTTLS is never issued, whatever
    [use_tls] says. *)
Theorem connect_login_after_upgrade smtp config st :
  exists b st' new,
    connect smtp config st = (Ok b, st')
    /\ calls st' = calls st ++ new
    /\ (StartTLS ∈ new -> use_ssl config = false /\ use_tls config = true)
    /\ (forall user pass,
          Login user pass ∈ new ->
          user = smtp_user config /\ pass = smtp_pass config
          /\ smtp (calls st) (open_call config) = None
          /\ (use_ssl config = false -> use_tls config = true ->
              smtp (calls st ++ [open_call config]) StartTLS = None)).
Proof.
  unfold connect, open_call. unfold_M. destruct st as [s cs].
  destruct (use_ssl config), (use_tls config); simpl; case_transport.
  all: eexists _, _, _; split; [reflexivity|]; simpl.
  all: split; [rewrite <- ?app_assoc; reflexivity|].
  all: split; [intros H | intros user pass H].
  all: rewrite ?elem_of_app, ?elem_of_cons, ?elem_of_nil in H.
  all: intuition (try congruence).
Qed.


(** X14: [connect] then [close] on a new mailer (what the context
    manager does around a connection test): the handle ends at [None];
    [quit] is sent, once and last, exactly when the socket was opened,
    also when the upgrade or the login then failed; when the socket
    could not be opened nothing follows the failed open. *)
Theorem connect_then_close smtp config st :
  _server st = None ->
  exists b st1 st2,
    connect smtp config st = (Ok b, st1)
    /\ close smtp st1 = (Ok tt, st2)
    /\ _server st2 = None
    /\ calls st2
       = calls st
         ++ (until_raise smtp (calls st) (connect_sequence config)).1
         ++ match smtp (calls st) (open_call config) with
            | None => [Quit]
            | Some _ => []
            end.
Proof.
  intros Hnone.
  destruct (connect_until_raise smtp config st) as (st1 & Hrun & Hc & Hs).
  destruct (close_spec smtp st1) as (st2 & Hcl & Hs2 & Hc2).
  eexists _, st1, st2. split; [exact Hrun|]. split; [exact Hcl|].
  split; [exact Hs2|].
  rewrite Hc2, Hc, Hs, Hnone, <- app_assoc.
  by destruct (smtp (calls st) (open_call config)).
Qed.

Lemma connect_then_close_witness :
  exists b st1 st2,
    connect rejecting_login demo_config init_state = (Ok b, st1)
    /\ close rejecting_login st1 = (Ok tt, st2)
    /\ _server st2 = None
    /\ calls st2
       = [ OpenPlain "smtp.example.com" 587 30; StartTLS;
           Login "me@example.com" "secret"; Quit ].
Proof.
  apply (connect_then_close rejecting_login demo_config init_state).
  reflexivity.
Defined.

(* ===================================================================== *)
(** ** More on [send_email]: what reaches the transport *)
(* ===================================================================== *)

Lemma connect_sequence_counts config :
  List.filter is_open_call (connect_sequence config) = [open_call config]
  /\ List.filter is_sendmail_call (connect_sequence config) = [].
Proof.
  unfold connect_sequence, open_call.
  by destruct (use_ssl config), (use_tls config).
Qed.

Lemma closing_only_quit server : Forall (fun c => c = Quit) (closing server).
Proof. destruct server; repeat constructor. Qed.

(** X15: [send_email] contacts the server exactly when the preparation
    goes through.  When the recipient field is not empty, every [to],
    [cc] and [bcc] address is accepted and [MIMEText] builds the body
    part, the first call of the send opens the socket; when the message
    is not valid, or the body part cannot be built, the result is a
    failure and the send makes no call but the [quit] that closes a
    connection the mailer already had. *)
Theorem send_email_contacts_server_iff_prepared
        env smtp config message st :
  exists r st' new,
    send_email env smtp config message st = (Ok r, st')
    /\ calls st' = calls st ++ new
    /\ (valid_message message = true ->
        (exists body, body_part env message = Ok body) ->
        exists rest, new = open_call config :: rest)
    /\ (valid_message message = false
        \/ (exists e, body_part env message = Raise e) ->
        success r = false /\ Forall (fun c => c = Quit) new).
Proof.
  destruct (send_email_run env smtp config message st)
    as (r & st' & Hrun & _ & Hcase).
  destruct (prepare env config message) as [[v doc]|e] eqn:Hp.
  - destruct (prepare_ok_inv env config message v doc Hp)
      as (Hvalid & -> & Hdoc).
    destruct (until_raise_head smtp (calls st) (open_call config)
                ((if negb (use_ssl config) && use_tls config
                  then [StartTLS] else [])
                 ++ [Login (smtp_user config) (smtp_pass config)]))
      as (made & Hmade & _).
    fold (connect_sequence config) in Hmade.
    assert (exists rest, connect_sequence config = open_call config :: rest)
      as [rest0 Hseq] by (unfold connect_sequence; eauto).
    assert (~ (valid_message message = false
               \/ (exists e, body_part env message = Raise e))) as Hnot.
    { intros [H | [e He]]; [congruence|].
      apply (proj2 (document_raises env config message e)) in He.
      congruence. }
    destruct (until_raise smtp (calls st) (connect_sequence config)).2;
      [destruct (as_string env doc) as [text|e]|];
      destruct Hcase as [Hr Hc];
      (eexists r, st', _; split; [exact Hrun|]; split; [exact Hc|]);
      (split; [intros _ _ | by intros H; apply Hnot in H]).
    + rewrite Hseq. simpl. eauto.
    + rewrite Hseq. simpl. eauto.
    + rewrite Hmade. simpl. eauto.
  - destruct Hcase as [-> Hc].
    eexists _, st', _. split; [exact Hrun|]. split; [exact Hc|].
    split.
    + intros Hvalid [bp Hbody]. exfalso.
      rewrite (prepare_ok env config message Hvalid) in Hp.
      unfold document in Hp. rewrite build_message_spec, Hbody in Hp.
      done.
    + intros _. split; [done | apply closing_only_quit].
Qed.

(** X16: when the connection cannot be made, for a valid message whose
    document is built, the result is the failure with the fixed text
    "Failed to connect to SMTP server", whatever exception the transport
    raised and at whichever step; the document is never handed to the
    transport, and the connection is closed if the socket had been
    opened. *)
Theorem send_email_connect_failure env smtp config message st doc :
  valid_message message = true ->
  document env config message = Ok doc ->
  (until_raise smtp (calls st) (connect_sequence config)).2 = false ->
  exists st' new,
    send_email env smtp config message st
    = (Ok (failure "Failed to connect to SMTP server"), st')
    /\ _server st' = None
    /\ calls st' = calls st ++ new
    /\ Forall (fun c => is_connect_call c = true \/ c = Quit) new.
Proof.
  intros Hvalid Hdoc Hfail.
  destruct (send_email_run env smtp config message st)
    as (r & st' & Hrun & Hs & Hcase).
  rewrite (prepare_ok env config message Hvalid), Hdoc, Hfail in Hcase.
  destruct Hcase as [-> Hc].
  eexists st', _. split; [exact Hrun|]. split; [exact Hs|].
  split; [exact Hc|].
  apply Forall_app. split.
  - apply Forall_forall. intros c Hin. left.
    apply until_raise_sublist in Hin.
    pose proof (connect_sequence_calls config) as Hcon.
    rewrite Forall_forall in Hcon. by apply Hcon.
  - destruct (smtp (calls st) (open_call config)); [|by repeat constructor].
    destruct (_server st); by repeat constructor.
Qed.

Lemma send_email_connect_failure_witness :
  exists st' new,
    send_email demo_env rejecting_login demo_config
      (plain_message (Single "ann@example.org")) init_state
    = (Ok (failure "Failed to connect to SMTP server"), st')
    /\ _server st' = None
    /\ calls st' = calls init_state ++ new
    /\ Forall (fun c => is_connect_call c = true \/ c = Quit) new.
Proof. eapply send_email_connect_failure; reflexivity. Defined.

(** X17: when the connection is made, the document is built and
    serialised, and the transport raises [e] on it, for a valid
    message, the result is the failure with the text of [e], and the
    connection is still closed: the calls of the send are those of
    [connect], the transmission, and [quit]. *)
Theorem send_email_transmit_failure env smtp config message st doc text e :
  valid_message message = true ->
  document env config message = Ok doc ->
  as_string env doc = Ok text ->
  (until_raise smtp (calls st) (connect_sequence config)).2 = true ->
  smtp (calls st ++ connect_sequence config)
    (Sendmail (smtp_user config) (all_recipients message) text) = Some e ->
  exists st',
    send_email env smtp config message st
    = (Ok (failure (str_exn e)), st')
    /\ _server st' = None
    /\ calls st'
       = calls st ++ connect_sequence config
         ++ [ Sendmail (smtp_user config) (all_recipients message) text;
              Quit ].
Proof.
  intros Hvalid Hdoc Hser Hok Hraise.
  destruct (send_email_run env smtp config message st)
    as (r & st' & Hrun & Hs & Hcase).
  rewrite (prepare_ok env config message Hvalid), Hdoc, Hok, Hser in Hcase.
  fold (all_recipients message) in Hcase. rewrite Hraise in Hcase.
  destruct Hcase as [-> Hc]. by exists st'.
Qed.

Lemma send_email_transmit_failure_witness :
  exists text st',
    send_email demo_env rejecting_sendmail demo_config
      (plain_message (Single "ann@example.org")) init_state
    = (Ok (failure "recipients refused"), st')
    /\ _server st' = None
    /\ calls st'
       = [ OpenPlain "smtp.example.com" 587 30; StartTLS;
           Login "me@example.com" "secret";
           Sendmail "me@example.com" ["ann@example.org"%string] text;
           Quit ].
Proof.
  edestruct (send_email_transmit_failure demo_env rejecting_sendmail
               demo_config (plain_message (Single "ann@example.org"))
               init_state) as (st' & Hrun & Hs & Hc);
    [ reflexivity | reflexivity | reflexivity | reflexivity
    | reflexivity | ].
  eexists _, st'. split; [exact Hrun|]. split; [exact Hs | exact Hc].
Defined.

(** X18: [send_quick_email] returns what [send_email] returns for the
    message built from its arguments on a new mailer, never raises, and
    makes the same calls: [send_email] has already closed the
    connection, so the [close] of the context manager sends no second
    [quit]; the handle ends at [None]. *)
Theorem send_quick_email_is_one_send
        env smtp config to subject body is_html kwargs hist :
  exists r st',
    send_email env smtp config
      (make_message to subject body is_html kwargs)
      {| _server := None; calls := hist |} = (Ok r, st')
    /\ send_quick_email env smtp config to subject body is_html kwargs hist
       = (Ok r, st')
    /\ _server st' = None.
Proof.
  unfold send_quick_email, with_mailer, send_simple_email, try_finally.
  destruct (send_email_run env smtp config
              (make_message to subject body is_html kwargs)
              {| _server := None; calls := hist |})
    as (r & st' & Hrun & Hs & _).
  exists r, st'. split; [exact Hrun|]. split; [|exact Hs].
  rewrite Hrun.
  destruct (close_spec smtp st') as (st'' & -> & Hs' & Hc').
  rewrite Hs, app_nil_r in Hc'.
  destruct st', st''. simpl in *. by subst.
Qed.

(** X19: custom headers are appended, in the order given, after the
    headers [send_email] writes itself, and change nothing else: a
    custom header named like one of them (a second To, say) does not
    replace it; and they do not decide whether the document is built. *)
Theorem custom_headers_are_appended env config message hs to cc :
  match build_message env config (with_headers hs message) to cc,
        build_message env config (with_headers None message) to cc with
  | Ok d, Ok d0 =>
      msg_headers d
      = msg_headers d0 ++ map (fun kv => header kv.1 kv.2) (default [] hs)
      /\ msg_parts d = msg_parts d0
  | Raise e, Raise e0 => e = e0
  | _, _ => False
  end.
Proof.
  rewrite !build_message_spec.
  change (body_part env (with_headers hs message))
    with (body_part env message).
  change (body_part env (with_headers None message))
    with (body_part env message).
  destruct (body_part env message); [|done].
  unfold message_headers, custom_headers. simpl.
  rewrite !app_nil_r. split; [|done].
  by rewrite <- !app_assoc.
Qed.

(** X20: there is no retry.  Whatever the retry count of the
    configuration (and the template data of the message), which
    [send_email] never reads, a send opens the socket at most once and
    hands the document to the transport at most once; with other
    values of the two fields the send makes the same calls and returns
    the same result. *)
Theorem send_email_makes_one_attempt env smtp config message st :
  (forall n d,
      send_email env smtp (with_max_retries n config)
        (with_template_data d message) st
      = send_email env smtp config message st)
  /\ exists r st' new,
       send_email env smtp config message st = (Ok r, st')
       /\ calls st' = calls st ++ new
       /\ (length (List.filter is_open_call new) <= 1)%nat
       /\ (length (List.filter is_sendmail_call new) <= 1)%nat.
Proof.
  split; [reflexivity|].
  destruct (send_email_run env smtp config message st)
    as (r & st' & Hrun & _ & Hcase).
  destruct (connect_calls_count smtp config (calls st)) as [Ho Hs].
  destruct (connect_sequence_counts config) as [Hso Hss].
  assert (forall s, List.filter is_open_call (closing s) = []
                    /\ List.filter is_sendmail_call (closing s) = [])
    as Hclose by (by intros [s|]).
  destruct (prepare env config message) as [[[[to cc] bcc] doc]|e].
  - destruct (until_raise smtp (calls st) (connect_sequence config)).2;
      [destruct (as_string env doc) as [text|e]|];
      destruct Hcase as [Hr Hc];
      (eexists r, st', _; split; [exact Hrun|]; split; [exact Hc|]);
      rewrite !List.filter_app, !length_app, ?Hso, ?Hss, ?Hs.
    + simpl. lia.
    + simpl. lia.
    + revert Ho.
      generalize (length (List.filter is_open_call
                    (until_raise smtp (calls st)
                       (connect_sequence config)).1)).
      intros k Hk.
      destruct (smtp (calls st) (open_call config)).
      * destruct (Hclose (_server st)) as [-> ->]. simpl. lia.
      * simpl. lia.
  - destruct Hcase as [-> Hc].
    eexists _, st', _. split; [exact Hrun|]. split; [exact Hc|].
    destruct (Hclose (_server st)) as [-> ->]. simpl. lia.
Qed.

(** X21: the shape of every result of [send_email]: the message id is
    never set; a success carries the recipients [to ++ cc ++ bcc] of the
    message and no error text; a failure carries an error text and no
    recipients. *)
Theorem send_email_result_shape env smtp config message st :
  exists r st',
    send_email env smtp config message st = (Ok r, st')
    /\ message_id r = None
    /\ (success r = true ->
        error_message r = None
        /\ recipients r = Some (all_recipients message))
    /\ (success r = false ->
        recipients r = None /\ exists msg, error_message r = Some msg).
Proof.
  destruct (send_email_run env smtp config message st)
    as (r & st' & Hrun & _ & Hcase).
  exists r, st'. split; [exact Hrun|].
  destruct (prepare env config message) as [[v doc]|e] eqn:Hp.
  - destruct (prepare_ok_inv env config message v doc Hp)
      as (_ & -> & _).
    destruct (until_raise smtp (calls st) (connect_sequence config)).2;
      [destruct (as_string env doc) as [text|e]|];
      destruct Hcase as [Hr _].
    + destruct (smtp (calls st ++ connect_sequence config) _); subst r;
        repeat split; try done; simpl; eauto.
    + subst r. repeat split; try done. simpl. eauto.
    + subst r. repeat split; try done. simpl. eauto.
  - destruct Hcase as [-> _]. repeat split; try done. simpl. eauto.
Qed.

(* ===================================================================== *)
(** ** More on [EmailTemplate] *)
(* ===================================================================== *)

(** X22: a renderer built without directory, with the empty string or
    with a directory that does not exist fails every [render_template],
    [render_html_email] and [render_text_email] with the [RuntimeError]
    of the missing directory, whatever the template name, the context
    and the subject template; and these are the only renderers without
    [env]: for an existing directory [render_template] is the engine's
    rendering of the named file of that directory. *)
Theorem render_template_needs_directory j dir :
  (tpl_env (new_template j dir) = None <-> no_directory j dir)
  /\ (forall name context subject_template,
        no_directory j dir ->
        let e := RuntimeError "Template directory not set or does not exist"
        in
        render_template j (new_template j dir) name context = Raise e
        /\ render_html_email j (new_template j dir) name context
             subject_template = Raise e
        /\ render_text_email j (new_template j dir) name context
             subject_template = Raise e)
  /\ (forall d name context,
        dir = Some d -> d <> EmptyString -> dir_exists j d = true ->
        render_template j (new_template j dir) name context
        = render_file j d name context).
Proof.
  assert (tpl_env (new_template j dir) = None <-> no_directory j dir)
    as Hiff.
  { unfold new_template, no_directory. simpl.
    destruct dir as [d|]; simpl; [|tauto].
    unfold truthy. destruct (String.eqb_spec d EmptyString) as [->|Hne];
      simpl.
    - tauto.
    - destruct (dir_exists j d) eqn:Hex; split; try done.
      + intros [H | [[= H] | (d' & [= <-] & H)]]; congruence.
      + intros _. right. right. eauto. }
  split; [exact Hiff|]. split.
  - intros name context st Hno. apply Hiff in Hno.
    unfold render_html_email, render_text_email, render_template.
    rewrite Hno. done.
  - intros d name context -> Hne Hex.
    unfold render_template, new_template. simpl.
    unfold truthy. destruct (String.eqb_spec d EmptyString); [done|].
    simpl. by rewrite Hex.
Qed.
